(** * Dropshipping Strategy Generator: the generation and validation pipeline

    A shallow embedding of [app.py]: the pydantic schema ([SalesAngle],
    [StrategyOutput]), the prompt, the handler of the GENERAR ESTRATEGIA
    button (completion call, [json.loads], [model_validate], the two writes
    to [st.session_state]) and the Shopify hero-section document.

    Conventions.
    - A Python [str] is a [string]: the bytes of its UTF-8 form.  Text that
      is copied is copied byte for byte; a [\uXXXX] escape read by
      [json.loads] is stored as the UTF-8 bytes of its code point.
    - A Python [dict] is an association list with pairwise distinct keys, in
      insertion order ([Dict.set] keeps the place of a key that is already
      there, as Python does).
    - Exceptions are values of [exn]; the [try] block of the handler runs in
      a state-and-exception monad over the session state, so that a write
      made before an exception would survive it.
    - The response text is not under the script's control, so [json.loads]
      is modelled with the two limits of the interpreter it can run into
      there: the recursion limit ([RecursionError] on containers nested too
      deep) and the limit on the digits of an integer literal
      ([ValueError]).  Both are parameters ([interpreter]).  [json_loads] is
      the same decoder with no limit set.  Calls on data of a fixed shape
      (the hero-section document, three levels deep) are taken to have the
      stack they need. *)

From Stdlib Require Import String Ascii List ZArith NArith Bool Lia.
From Stdlib Require Import DecimalString.
From Stdlib Require DecimalFacts DecimalPos.
Import ListNotations.

Open Scope string_scope.

(* ================================================================= *)
(** * Python values produced by [json.loads] *)

(** A [float] is kept as the text of its literal: no field of the schema
    accepts one, so only its being a float matters. *)
#[local] Unset Elimination Schemes.
Inductive json : Type :=
| JNull
| JBool (b : bool)
| JInt (z : Z)
| JFloat (lexeme : string)
| JString (s : string)
| JArray (items : list json)
| JObject (members : list (string * json)).
#[local] Set Elimination Schemes.

(* ================================================================= *)
(** * Python dictionaries *)

Module Dict.

Definition t (A : Type) : Type := list (string * A).

(** [d.get(k)], [None] when [k not in d]. *)
Fixpoint get {A : Type} (d : t A) (k : string) : option A :=
  match d with
  | [] => None
  | (k', v) :: d' => if String.eqb k' k then Some v else get d' k
  end.

(** [d[k] = v]: overwrite in place, or append a new key at the end. *)
Fixpoint set {A : Type} (d : t A) (k : string) (v : A) : t A :=
  match d with
  | [] => [(k, v)]
  | (k', v') :: d' =>
      if String.eqb k' k then (k', v) :: d' else (k', v') :: set d' k v
  end.

(** [dict(pairs)], and the dict comprehension [{k: v for ...}]: the pairs
    are inserted from left to right. *)
Definition of_pairs {A : Type} (pairs : list (string * A)) : t A :=
  fold_left (fun d kv => set d (fst kv) (snd kv)) pairs [].

(** [list(d.keys())]. *)
Definition keys {A : Type} (d : t A) : list string := map fst d.

End Dict.

(* ================================================================= *)
(** * Characters *)

Definition dquote : ascii := "034"%char.
Definition backslash : ascii := "092"%char.
Definition newline : ascii := "010"%char.

(** [WHITESPACE = re.compile(r'[ \t\n\r]*')] of [json.decoder]. *)
Definition is_ws (c : ascii) : bool :=
  (Ascii.eqb c " " || Ascii.eqb c "009" || Ascii.eqb c "010"
   || Ascii.eqb c "013")%bool.

Fixpoint skip_ws (s : string) : string :=
  match s with
  | String c s' => if is_ws c then skip_ws s' else s
  | EmptyString => EmptyString
  end.

Definition is_digit (c : ascii) : bool :=
  (N.leb 48 (N_of_ascii c) && N.leb (N_of_ascii c) 57)%bool.

Definition digit_val (c : ascii) : Z := Z.of_N (N_of_ascii c) - 48.

(** Value of a hexadecimal digit, either case. *)
Definition hex_val (c : ascii) : option N :=
  let n := N_of_ascii c in
  if (N.leb 48 n && N.leb n 57)%bool then Some (n - 48)%N
  else if (N.leb 97 n && N.leb n 102)%bool then Some (n - 87)%N
  else if (N.leb 65 n && N.leb n 70)%bool then Some (n - 55)%N
  else None.

Definition hex4 (h1 h2 h3 h4 : ascii) : option N :=
  match hex_val h1, hex_val h2, hex_val h3, hex_val h4 with
  | Some a, Some b, Some c, Some d => Some (((a * 16 + b) * 16 + c) * 16 + d)%N
  | _, _, _, _ => None
  end.

(** UTF-8 form of a code point (a lone surrogate takes the three-byte
    form). *)
Definition utf8 (cp : N) : string :=
  if (cp <? 128)%N then String (ascii_of_N cp) ""
  else if (cp <? 2048)%N then
    String (ascii_of_N (192 + cp / 64))
      (String (ascii_of_N (128 + cp mod 64)) "")
  else if (cp <? 65536)%N then
    String (ascii_of_N (224 + cp / 4096))
      (String (ascii_of_N (128 + (cp / 64) mod 64))
         (String (ascii_of_N (128 + cp mod 64)) ""))
  else
    String (ascii_of_N (240 + cp / 262144))
      (String (ascii_of_N (128 + (cp / 4096) mod 64))
         (String (ascii_of_N (128 + (cp / 64) mod 64))
            (String (ascii_of_N (128 + cp mod 64)) ""))).

(* ================================================================= *)
(** * [json.loads] *)

(** ** String literals ([json.decoder.scanstring], strict mode) *)

(** What a string literal is made of: a character taken as it is (or the
    character of a one-letter escape), or the 16-bit value of a [\uXXXX]
    escape. *)
Inductive str_unit : Type :=
| Raw (c : ascii)
| Esc16 (n : N).

(** [BACKSLASH] of [json.decoder]. *)
Definition unescape (e : ascii) : option ascii :=
  if Ascii.eqb e dquote then Some dquote
  else if Ascii.eqb e backslash then Some backslash
  else if Ascii.eqb e "/" then Some "/"%char
  else if Ascii.eqb e "b" then Some "008"%char
  else if Ascii.eqb e "f" then Some "012"%char
  else if Ascii.eqb e "n" then Some "010"%char
  else if Ascii.eqb e "r" then Some "013"%char
  else if Ascii.eqb e "t" then Some "009"%char
  else None.

(** Reads the body of a literal, from just after its opening quote up to
    and including its closing quote.  [None]: unterminated string, control
    character below U+0020, or invalid escape. *)
Fixpoint scan_units (s : string) : option (list str_unit * string) :=
  match s with
  | EmptyString => None
  | String c s1 =>
      if Ascii.eqb c dquote then Some ([], s1)
      else if Ascii.eqb c backslash then
        match s1 with
        | EmptyString => None
        | String e s2 =>
            if Ascii.eqb e "u" then
              match s2 with
              | String h1 (String h2 (String h3 (String h4 s3))) =>
                  match hex4 h1 h2 h3 h4 with
                  | Some n =>
                      match scan_units s3 with
                      | Some (us, rest) => Some (Esc16 n :: us, rest)
                      | None => None
                      end
                  | None => None
                  end
              | _ => None
              end
            else
              match unescape e with
              | Some c' =>
                  match scan_units s2 with
                  | Some (us, rest) => Some (Raw c' :: us, rest)
                  | None => None
                  end
              | None => None
              end
        end
      else if (N_of_ascii c <? 32)%N then None
      else
        match scan_units s1 with
        | Some (us, rest) => Some (Raw c :: us, rest)
        | None => None
        end
  end.

Definition is_high_surrogate (n : N) : bool :=
  (N.leb 55296 n && N.leb n 56319)%bool.

Definition is_low_surrogate (n : N) : bool :=
  (N.leb 56320 n && N.leb n 57343)%bool.

(** A [\uXXXX] escape of a high surrogate directly followed by one of a
    low surrogate is one code point; any other escape stands alone. *)
Fixpoint decode_units (us : list str_unit) : string :=
  match us with
  | [] => ""
  | Raw c :: r => String c (decode_units r)
  | Esc16 hi :: r =>
      match r with
      | Esc16 lo :: r' =>
          if (is_high_surrogate hi && is_low_surrogate lo)%bool then
            utf8 (65536 + ((hi - 55296) * 1024 + (lo - 56320)))%N
            ++ decode_units r'
          else utf8 hi ++ decode_units r
      | _ => utf8 hi ++ decode_units r
      end
  end.

Definition scanstring (s : string) : option (string * string) :=
  match scan_units s with
  | Some (us, rest) => Some (decode_units us, rest)
  | None => None
  end.

(** ** Numbers ([NUMBER_RE] of [json.scanner]) *)

(** The longest prefix made of digits, and what follows it. *)
Fixpoint span_digits (s : string) : string * string :=
  match s with
  | String c s' =>
      if is_digit c then
        let (ds, rest) := span_digits s' in (String c ds, rest)
      else ("", s)
  | EmptyString => ("", "")
  end.

(** The integer group of [NUMBER_RE], an optional minus sign and then
    either a single zero or a digit from 1 to 9 with any digits after it:
    the sign, the digits, and what follows. *)
Definition match_integer (s : string) : option (bool * string * string) :=
  let (neg, s0) :=
    match s with
    | String c s' => if Ascii.eqb c "-" then (true, s') else (false, s)
    | EmptyString => (false, s)
    end in
  match s0 with
  | String c s1 =>
      if Ascii.eqb c "0" then Some (neg, "0", s1)
      else if is_digit c then
        let (ds, rest) := span_digits s1 in Some (neg, String c ds, rest)
      else None
  | EmptyString => None
  end.

(** [(\.\d+)?]: the matched text (empty when the group does not match). *)
Definition match_frac (s : string) : string * string :=
  match s with
  | String c s1 =>
      if Ascii.eqb c "." then
        match span_digits s1 with
        | (EmptyString, _) => ("", s)
        | (ds, rest) => (String c ds, rest)
        end
      else ("", s)
  | EmptyString => ("", s)
  end.

(** [([eE][-+]?\d+)?]. *)
Definition match_exp (s : string) : string * string :=
  match s with
  | String c s1 =>
      if (Ascii.eqb c "e" || Ascii.eqb c "E")%bool then
        match s1 with
        | String g s2 =>
            if (Ascii.eqb g "-" || Ascii.eqb g "+")%bool then
              match span_digits s2 with
              | (EmptyString, _) => ("", s)
              | (ds, rest) => (String c (String g ds), rest)
              end
            else
              match span_digits s1 with
              | (EmptyString, _) => ("", s)
              | (ds, rest) => (String c ds, rest)
              end
        | EmptyString => ("", s)
        end
      else ("", s)
  | EmptyString => ("", s)
  end.

(** [int(digits)] for a string of decimal digits. *)
Definition int_of_digits (ds : string) : Z :=
  fold_left (fun acc c => acc * 10 + digit_val c)%Z (list_ascii_of_string ds) 0%Z.

Definition scan_number (s : string) : option (json * string) :=
  match match_integer s with
  | None => None
  | Some (neg, ds, r0) =>
      let (frac, r1) := match_frac r0 in
      let (exp, r2) := match_exp r1 in
      match frac, exp with
      | EmptyString, EmptyString =>
          Some (JInt (if neg then - int_of_digits ds else int_of_digits ds)%Z, r2)
      | _, _ =>
          Some (JFloat ((if neg then "-" else "") ++ ds ++ frac ++ exp), r2)
      end
  end.

(** [s[idx:idx + len(p)] == p], with the text after it. *)
Fixpoint strip_prefix (p s : string) : option string :=
  match p with
  | EmptyString => Some s
  | String a p' =>
      match s with
      | String b s' => if Ascii.eqb a b then strip_prefix p' s' else None
      | EmptyString => None
      end
  end.

(** ** Values ([scan_once], [JSONArray], [JSONObject]) *)

(** Outcome of a scan: the value and the text after it, [StopIteration] or
    [JSONDecodeError] ([Stop]), or the recursion bound of this model
    reached ([OutOfFuel]; never the case in [json_loads], see
    [json_loads_enough_fuel]). *)
Inductive scan (A : Type) : Type :=
| Done (a : A) (rest : string)
| Stop
| OutOfFuel.
Arguments Done {A} a rest.
Arguments Stop {A}.
Arguments OutOfFuel {A}.

Definition scan_map {A B : Type} (f : A -> B) (r : scan A) : scan B :=
  match r with
  | Done a rest => Done (f a) rest
  | Stop => Stop
  | OutOfFuel => OutOfFuel
  end.

Definition scan_literal (s : string) : scan json :=
  match strip_prefix "null" s with
  | Some r => Done JNull r
  | None =>
  match strip_prefix "true" s with
  | Some r => Done (JBool true) r
  | None =>
  match strip_prefix "false" s with
  | Some r => Done (JBool false) r
  | None =>
  match scan_number s with
  | Some (v, r) => Done v r
  | None =>
  match strip_prefix "NaN" s with
  | Some r => Done (JFloat "NaN") r
  | None =>
  match strip_prefix "Infinity" s with
  | Some r => Done (JFloat "Infinity") r
  | None =>
  match strip_prefix "-Infinity" s with
  | Some r => Done (JFloat "-Infinity") r
  | None => Stop
  end end end end end end end.

(** [scan_once s] reads one value at the head of [s].  [parse_items] is
    the loop of [JSONArray], entered at the first item; [parse_members] is
    the loop of [JSONObject], entered just after the opening quote of a
    key. *)
Fixpoint scan_once (fuel : nat) (s : string) {struct fuel} : scan json :=
  match fuel with
  | O => OutOfFuel
  | S fuel' =>
      match s with
      | EmptyString => Stop
      | String c s' =>
          if Ascii.eqb c dquote then
            match scanstring s' with
            | Some (str, rest) => Done (JString str) rest
            | None => Stop
            end
          else if Ascii.eqb c "{" then
            match skip_ws s' with
            | String c1 s1 =>
                if Ascii.eqb c1 "}" then Done (JObject []) s1
                else if Ascii.eqb c1 dquote then
                  scan_map (fun ms => JObject (Dict.of_pairs ms))
                    (parse_members fuel' s1)
                else Stop
            | EmptyString => Stop
            end
          else if Ascii.eqb c "[" then
            match skip_ws s' with
            | String c1 s1 =>
                if Ascii.eqb c1 "]" then Done (JArray []) s1
                else scan_map JArray (parse_items fuel' (String c1 s1))
            | EmptyString => Stop
            end
          else scan_literal s
      end
  end

with parse_items (fuel : nat) (s : string) {struct fuel} : scan (list json) :=
  match fuel with
  | O => OutOfFuel
  | S fuel' =>
      match scan_once fuel' s with
      | Done v r =>
          match skip_ws r with
          | String c r1 =>
              if Ascii.eqb c "]" then Done [v] r1
              else if Ascii.eqb c "," then
                scan_map (cons v) (parse_items fuel' (skip_ws r1))
              else Stop
          | EmptyString => Stop
          end
      | Stop => Stop
      | OutOfFuel => OutOfFuel
      end
  end

with parse_members (fuel : nat) (s : string) {struct fuel}
  : scan (list (string * json)) :=
  match fuel with
  | O => OutOfFuel
  | S fuel' =>
      match scanstring s with
      | None => Stop
      | Some (key, r0) =>
          match skip_ws r0 with
          | String c r1 =>
              if Ascii.eqb c ":" then
                match scan_once fuel' (skip_ws r1) with
                | Done v r2 =>
                    match skip_ws r2 with
                    | String c2 r3 =>
                        if Ascii.eqb c2 "}" then Done [(key, v)] r3
                        else if Ascii.eqb c2 "," then
                          match skip_ws r3 with
                          | String c3 r4 =>
                              if Ascii.eqb c3 dquote then
                                scan_map (cons (key, v))
                                  (parse_members fuel' r4)
                              else Stop
                          | EmptyString => Stop
                          end
                        else Stop
                    | EmptyString => Stop
                    end
                | Stop => Stop
                | OutOfFuel => OutOfFuel
                end
              else Stop
          | EmptyString => Stop
          end
      end
  end.

(** [json.loads(s)] for a [str], when no limit of the interpreter is
    reached: [None] is [json.JSONDecodeError].  ([JSONDecoder.decode]:
    leading whitespace, one value, trailing whitespace, end of text.) *)
Definition json_loads (s : string) : option json :=
  match scan_once (S (2 * String.length s)) (skip_ws s) with
  | Done v rest =>
      match skip_ws rest with
      | EmptyString => Some v
      | String _ _ => None
      end
  | Stop => None
  | OutOfFuel => None
  end.

(** ** The limits of the interpreter *)

(** The interpreter the script runs on, as far as [json.loads] depends on
    it: for a text, the message of the exception that is raised when
    decoding it runs into a limit of the interpreter (a [RecursionError], a
    [ValueError] for an integer literal of too many digits, ...), [None]
    when it does not.  Such an exception is no [json.JSONDecodeError]. *)
Record interpreter : Type := {
  exceeds_limit : string -> option string
}.

(** [json.loads(s)] on a given interpreter. *)
Inductive decoded : Type :=
| Loaded (v : json)
| DecodeError
| LimitError (msg : string).

Definition json_loads_within (py : interpreter) (s : string) : decoded :=
  match exceeds_limit py s with
  | Some msg => LimitError msg
  | None =>
      match json_loads s with
      | Some v => Loaded v
      | None => DecodeError
      end
  end.

(** ** An interpreter: the two limits of CPython's scanner *)

Inductive limit_error : Type :=
| RecursionError (container : string)
| ValueError (max_digits digits : nat).

Definition nat_text (n : nat) : string :=
  NilZero.string_of_uint (Nat.to_uint n).

(** [str(e)]. *)
Definition message (e : limit_error) : string :=
  match e with
  | RecursionError container =>
      "maximum recursion depth exceeded while decoding a JSON " ++ container
      ++ " from a unicode string"
  | ValueError max_digits digits =>
      "Exceeds the limit (" ++ nat_text max_digits
      ++ " digits) for integer string conversion: value has "
      ++ nat_text digits
      ++ " digits; use sys.set_int_max_str_digits() to increase the limit"
  end.

(** The check of [int(digits)]: literals of up to 640 digits are never
    refused, and a limit of 0 is no limit. *)
Definition too_many_digits (max_digits digits : nat) : bool :=
  (Nat.ltb 640 digits && Nat.ltb 0 max_digits && Nat.ltb max_digits digits)%bool.

(** Outcome of a scan that keeps track of the limits and not of the value:
    the text after the value, [JSONDecodeError], the recursion bound of
    this model, or a limit of the interpreter. *)
Inductive probe : Type :=
| Passed (rest : string)
| Failed
| Exhausted
| Exceeded (e : limit_error).

(** A literal: the limit on digits applies to an [int], not to a float. *)
Definition probe_literal (max_digits : nat) (s : string) : probe :=
  match scan_literal s with
  | Done (JInt _) rest =>
      match match_integer s with
      | Some (_, ds, _) =>
          if too_many_digits max_digits (String.length ds) then
            Exceeded (ValueError max_digits (String.length ds))
          else Passed rest
      | None => Passed rest
      end
  | Done _ rest => Passed rest
  | Stop => Failed
  | OutOfFuel => Exhausted
  end.

(** [scan_once], [JSONArray] and [JSONObject] again, with [depth] the
    number of containers that may still be entered: entering one takes a
    level of the recursion the interpreter allows, and raises when none is
    left. *)
Fixpoint probe_once (max_digits depth fuel : nat) (s : string) {struct fuel}
  : probe :=
  match fuel with
  | O => Exhausted
  | S fuel' =>
      match s with
      | EmptyString => Failed
      | String c s' =>
          if Ascii.eqb c dquote then
            match scanstring s' with
            | Some (_, rest) => Passed rest
            | None => Failed
            end
          else if Ascii.eqb c "{" then
            match depth with
            | O => Exceeded (RecursionError "object")
            | S depth' =>
                match skip_ws s' with
                | String c1 s1 =>
                    if Ascii.eqb c1 "}" then Passed s1
                    else if Ascii.eqb c1 dquote then
                      probe_members max_digits depth' fuel' s1
                    else Failed
                | EmptyString => Failed
                end
            end
          else if Ascii.eqb c "[" then
            match depth with
            | O => Exceeded (RecursionError "array")
            | S depth' =>
                match skip_ws s' with
                | String c1 s1 =>
                    if Ascii.eqb c1 "]" then Passed s1
                    else probe_items max_digits depth' fuel' (String c1 s1)
                | EmptyString => Failed
                end
            end
          else probe_literal max_digits s
      end
  end

with probe_items (max_digits depth fuel : nat) (s : string) {struct fuel}
  : probe :=
  match fuel with
  | O => Exhausted
  | S fuel' =>
      match probe_once max_digits depth fuel' s with
      | Passed r =>
          match skip_ws r with
          | String c r1 =>
              if Ascii.eqb c "]" then Passed r1
              else if Ascii.eqb c "," then
                probe_items max_digits depth fuel' (skip_ws r1)
              else Failed
          | EmptyString => Failed
          end
      | r => r
      end
  end

with probe_members (max_digits depth fuel : nat) (s : string) {struct fuel}
  : probe :=
  match fuel with
  | O => Exhausted
  | S fuel' =>
      match scanstring s with
      | None => Failed
      | Some (_, r0) =>
          match skip_ws r0 with
          | String c r1 =>
              if Ascii.eqb c ":" then
                match probe_once max_digits depth fuel' (skip_ws r1) with
                | Passed r2 =>
                    match skip_ws r2 with
                    | String c2 r3 =>
                        if Ascii.eqb c2 "}" then Passed r3
                        else if Ascii.eqb c2 "," then
                          match skip_ws r3 with
                          | String c3 r4 =>
                              if Ascii.eqb c3 dquote then
                                probe_members max_digits depth fuel' r4
                              else Failed
                          | EmptyString => Failed
                          end
                        else Failed
                    | EmptyString => Failed
                    end
                | r => r
                end
              else Failed
          | EmptyString => Failed
          end
      end
  end.

(** An interpreter with the two limits that CPython's scanner checks: it
    gives up when the scan enters more than [recursion_headroom] nested
    containers (on CPython, the recursion limit less the frames in use
    where [json.loads] is called) or converts an integer literal of more
    than [max_str_digits] digits ([sys.get_int_max_str_digits()], 4300
    unless it was set).  The first limit met in the order of the scan is
    the one reported.  (CPython 3.11 also gives up when a
    [json.JSONDecodeError] has to be built with fewer than three levels of
    recursion left; this interpreter does not.  The properties of the
    handler are stated for every interpreter; this one serves in the
    examples.) *)
Definition cpython (recursion_headroom max_str_digits : nat) : interpreter :=
  {| exceeds_limit := fun s =>
       match probe_once max_str_digits recursion_headroom
               (S (2 * String.length s)) (skip_ws s) with
       | Exceeded e => Some (message e)
       | _ => None
       end |}.

(* ================================================================= *)
(** * [json.dumps(obj, indent=..., ensure_ascii=False)] *)

Definition hex_digit (n : N) : ascii :=
  if (n <? 10)%N then ascii_of_N (48 + n) else ascii_of_N (87 + n).

(** [ESCAPE_DCT] of [json.encoder]: the seven short escapes, and
    [\u00xx] for every other character below U+0020. *)
Definition escape_char (c : ascii) : string :=
  if Ascii.eqb c dquote then String backslash (String dquote "")
  else if Ascii.eqb c backslash then String backslash (String backslash "")
  else if Ascii.eqb c "008" then String backslash "b"
  else if Ascii.eqb c "012" then String backslash "f"
  else if Ascii.eqb c "010" then String backslash "n"
  else if Ascii.eqb c "013" then String backslash "r"
  else if Ascii.eqb c "009" then String backslash "t"
  else if (N_of_ascii c <? 32)%N then
    String backslash
      (String "u" (String "0" (String "0"
         (String (hex_digit (N_of_ascii c / 16))
            (String (hex_digit (N_of_ascii c mod 16)) "")))))
  else String c "".

Fixpoint escape (s : string) : string :=
  match s with
  | EmptyString => EmptyString
  | String c s' => escape_char c ++ escape s'
  end.

(** [py_encode_basestring]. *)
Definition encode_basestring (s : string) : string :=
  String dquote (escape s ++ String dquote "").

Fixpoint spaces (n : nat) : string :=
  match n with
  | O => ""
  | S n' => String " " (spaces n')
  end.

(** The settings of a [JSONEncoder] that the text depends on. *)
Record JSONEncoder : Type := {
  enc_indent : option nat;
  item_separator : string;
  key_separator : string
}.

(** [JSONEncoder.__init__] when no [separators] are given: [', '] between
    items by default, [','] when an indent is given; [': '] after a key. *)
Definition encoder (indent : option nat) : JSONEncoder :=
  {| enc_indent := indent;
     item_separator := match indent with
                       | None => ", "
                       | Some _ => ","
                       end;
     key_separator := ": " |}.

(** The line break and indentation written inside a container at nesting
    depth [level]; nothing when the indent is [None]. *)
Definition newline_indent (enc : JSONEncoder) (level : nat) : string :=
  match enc_indent enc with
  | None => ""
  | Some n => String newline (spaces (n * level))
  end.

(** [''.join] of chunks with a separator between them. *)
Fixpoint join (sep : string) (chunks : list string) : string :=
  match chunks with
  | [] => ""
  | x :: rest =>
      match rest with
      | [] => x
      | _ :: _ => x ++ sep ++ join sep rest
      end
  end.

(** [_iterencode] at nesting depth [level].  An [int] is written in
    decimal.  A float is written as the text it is kept as, which is what
    Python writes only when that text is the [repr] of the float: no
    property below is about the text of a float. *)
Fixpoint dumps (enc : JSONEncoder) (level : nat) (o : json) : string :=
  match o with
  | JNull => "null"
  | JBool true => "true"
  | JBool false => "false"
  | JInt z => NilZero.string_of_int (Z.to_int z)
  | JFloat lexeme => lexeme
  | JString s => encode_basestring s
  | JArray [] => "[]"
  | JArray items =>
      "[" ++ newline_indent enc (S level)
      ++ join (item_separator enc ++ newline_indent enc (S level))
           (map (dumps enc (S level)) items)
      ++ newline_indent enc level ++ "]"
  | JObject [] => "{}"
  | JObject members =>
      "{" ++ newline_indent enc (S level)
      ++ join (item_separator enc ++ newline_indent enc (S level))
           (map (fun kv => encode_basestring (fst kv) ++ key_separator enc
                           ++ dumps enc (S level) (snd kv)) members)
      ++ newline_indent enc level ++ "}"
  end.

(** [json.dumps(obj, indent=indent, ensure_ascii=False)]. *)
Definition json_dumps (indent : option nat) (obj : json) : string :=
  dumps (encoder indent) 0 obj.

(* ================================================================= *)
(** * The pydantic schema *)

Record SalesAngle : Type := {
  avatar_name : string;
  pain_point_addressed : string;
  persuasive_copy : string
}.

Record StrategyOutput : Type := {
  main_pain_points : list string;
  sales_angles : list SalesAngle
}.

(** ** [ValidationError] *)

(** The error types pydantic reports for this schema. *)
Inductive ErrorType : Type :=
| missing
| string_type
| list_type
| model_type.

Inductive LocItem : Type :=
| Key (name : string)
| Index (i : nat).

(** One entry of [ValidationError.errors()]. *)
Record ErrorDetails : Type := {
  err_type : ErrorType;
  err_loc : list LocItem;
  err_input : json
}.

(** A validator returns the value, or every error found below it. *)
Definition validation (A : Type) : Type := (list ErrorDetails + A)%type.

(** Errors of the fields of a model, and of the items of a list, are
    collected in order; none stops the validation of the others. *)
Definition ap {A B : Type} (f : validation (A -> B)) (x : validation A)
  : validation B :=
  match f, x with
  | inr g, inr a => inr (g a)
  | inl e1, inl e2 => inl (e1 ++ e2)%list
  | inl e1, inr _ => inl e1
  | inr _, inl e2 => inl e2
  end.
Arguments ap {A B} f x : simpl never.

(** A field of type [str] takes a [str] and nothing else (an [int], a
    [float] or a [bool] is not converted). *)
Definition validate_str (loc : list LocItem) (v : json) : validation string :=
  match v with
  | JString s => inr s
  | _ => inl [{| err_type := string_type; err_loc := loc; err_input := v |}]
  end.

Fixpoint validate_items {A : Type}
  (item : list LocItem -> json -> validation A)
  (loc : list LocItem) (i : nat) (l : list json) : validation (list A) :=
  match l with
  | [] => inr []
  | x :: l' =>
      ap (ap (inr cons) (item (loc ++ [Index i])%list x))
         (validate_items item loc (S i) l')
  end.

(** A field of type [List[T]] takes a [list], of any length. *)
Definition validate_list {A : Type}
  (item : list LocItem -> json -> validation A)
  (loc : list LocItem) (v : json) : validation (list A) :=
  match v with
  | JArray l => validate_items item loc 0 l
  | _ => inl [{| err_type := list_type; err_loc := loc; err_input := v |}]
  end.

(** A field declared with [Field(...)] is required: no default. *)
Definition validate_field {A : Type}
  (validator : list LocItem -> json -> validation A)
  (loc : list LocItem) (d : Dict.t json) (name : string) : validation A :=
  match Dict.get d name with
  | Some v => validator (loc ++ [Key name])%list v
  | None =>
      inl [{| err_type := missing; err_loc := (loc ++ [Key name])%list;
              err_input := JObject d |}]
  end.

(** Only the declared fields are looked up: with the default model
    configuration a key that is not a field is ignored. *)
Definition validate_SalesAngle (loc : list LocItem) (v : json)
  : validation SalesAngle :=
  match v with
  | JObject d =>
      ap (ap (ap (inr Build_SalesAngle)
                (validate_field validate_str loc d "avatar_name"))
            (validate_field validate_str loc d "pain_point_addressed"))
         (validate_field validate_str loc d "persuasive_copy")
  | _ => inl [{| err_type := model_type; err_loc := loc; err_input := v |}]
  end.

Definition validate_StrategyOutput (loc : list LocItem) (v : json)
  : validation StrategyOutput :=
  match v with
  | JObject d =>
      ap (ap (inr Build_StrategyOutput)
            (validate_field (validate_list validate_str) loc d
               "main_pain_points"))
         (validate_field (validate_list validate_SalesAngle) loc d
            "sales_angles")
  | _ => inl [{| err_type := model_type; err_loc := loc; err_input := v |}]
  end.

(** [StrategyOutput.model_validate(obj)]: [inl errors] is
    [ValidationError]. *)
Definition model_validate (obj : json) : validation StrategyOutput :=
  validate_StrategyOutput [] obj.

(** [model_dump()] of the two models. *)
Definition SalesAngle_model_dump (a : SalesAngle) : json :=
  JObject [("avatar_name", JString (avatar_name a));
           ("pain_point_addressed", JString (pain_point_addressed a));
           ("persuasive_copy", JString (persuasive_copy a))].

Definition model_dump (o : StrategyOutput) : json :=
  JObject [("main_pain_points", JArray (map JString (main_pain_points o)));
           ("sales_angles", JArray (map SalesAngle_model_dump (sales_angles o)))].

(* ================================================================= *)
(** * The prompt *)

(** The f-string [prompt]; [json_schema] stands for the text
    [json.dumps(json_schema, indent=2)] spliced in at its end. *)
Definition prompt (product_name competitor_reviews json_schema : string)
  : string :=
  "
                Actúa como un experto en Direct Response Marketing (DRM) con 10 años de experiencia.
                Tu tarea es analizar las reseñas de la competencia para un producto similar al: "
  ++ String dquote ""
  ++ product_name
  ++ String dquote ""
  ++ ".

                RESEÑAS A ANALIZAR:
                ---
                "
  ++ competitor_reviews
  ++ "
                ---

                Instrucciones:
                1. **Detecta los dolores principales del cliente** (al menos 3) que se mencionan o se infieren de las reseñas.
                2. **Crea 3 'Ángulos de Venta' (Avatares) distintos** basados en estos dolores. Cada ángulo debe representar un tipo de cliente con una objeción o necesidad específica (ej: 'El Escéptico', 'El Usuario Intensivo', 'El Buscador de Valor').
                3. Para cada ángulo, escribe un **párrafo persuasivo de venta** (3-5 frases) que hable directamente al dolor de ese avatar y posicione el producto "
  ++ String dquote ""
  ++ product_name
  ++ String dquote ""
  ++ " como la solución definitiva. El tono debe ser de venta directa y convincente.
                4. Tu respuesta DEBE ser un objeto JSON que se ajuste estrictamente al siguiente esquema: "
  ++ json_schema
  ++ "
                ".

(* ================================================================= *)
(** * The handler of the button *)

(** [st.session_state], the two keys the script writes. *)
Record session_state : Type := {
  strategy : option StrategyOutput;
  angles : option (Dict.t SalesAngle)
}.

(** What the [try] block can raise; [Exception] is any exception that is
    neither of the first two. *)
Inductive exn : Type :=
| ValidationError (errors : list ErrorDetails)
| JSONDecodeError
| Exception (msg : string).

(** What [client.chat.completions.create(...)] followed by
    [response.choices[0].message.content] comes to: an exception, or the
    content, which is a [str] or [None]. *)
Inductive completion : Type :=
| Raised (msg : string)
| Returned (content : option string).

(** Computations of the [try] block: the state reached is returned with
    the exception too. *)
Definition M (A : Type) : Type := session_state -> (exn + A) * session_state.

Definition ret {A : Type} (a : A) : M A := fun st => (inr a, st).

Definition raise {A : Type} (e : exn) : M A := fun st => (inl e, st).

Definition bind {A B : Type} (m : M A) (k : A -> M B) : M B :=
  fun st =>
    match m st with
    | (inr a, st') => k a st'
    | (inl e, st') => (inl e, st')
    end.

Notation "x <- m ;; k" := (bind m (fun x => k))
  (at level 61, m at next level, right associativity).

Definition set_strategy (o : StrategyOutput) : M unit :=
  fun st => (inr tt, {| strategy := Some o; angles := angles st |}).

Definition set_angles (d : Dict.t SalesAngle) : M unit :=
  fun st => (inr tt, {| strategy := strategy st; angles := Some d |}).

Definition create (client : string -> completion) (p : string)
  : M (option string) :=
  match client p with
  | Raised msg => raise (Exception msg)
  | Returned content => ret content
  end.

(** [json.loads(content)]: a [TypeError] when the content is [None]; on a
    text, the value, a [json.JSONDecodeError], or the exception of the
    limit that was reached. *)
Definition loads (py : interpreter) (content : option string) : M json :=
  match content with
  | None =>
      raise (Exception
        "the JSON object must be str, bytes or bytearray, not NoneType")
  | Some s =>
      match json_loads_within py s with
      | Loaded v => ret v
      | DecodeError => raise JSONDecodeError
      | LimitError msg => raise (Exception msg)
      end
  end.

Definition validate (response_json : json) : M StrategyOutput :=
  match model_validate response_json with
  | inr o => ret o
  | inl errors => raise (ValidationError errors)
  end.

(** [{angle.avatar_name: angle for angle in strategy_output.sales_angles}]. *)
Definition angles_of (strategy_output : StrategyOutput) : Dict.t SalesAngle :=
  Dict.of_pairs
    (map (fun angle => (avatar_name angle, angle))
       (sales_angles strategy_output)).

(** The body of the [try]. *)
Definition try_block (py : interpreter) (client : string -> completion)
  (json_schema product_name competitor_reviews : string) : M unit :=
  content <- create client (prompt product_name competitor_reviews json_schema) ;;
  response_json <- loads py content ;;
  strategy_output <- validate response_json ;;
  _ <- set_strategy strategy_output ;;
  set_angles (angles_of strategy_output).

(** What the user is shown, named after the kind of outcome each message
    stands for: [st.success]; the [st.error] of the input check; the one of
    [except ValidationError], with the errors it prints; the one of
    [except json.JSONDecodeError]; the one of [except Exception], with the
    exception it prints. *)
Inductive report : Type :=
| Success
| MissingInput
| SchemaViolation (errors : list ErrorDetails)
| MalformedOutput
| TransportFailure (detail : string).

Definition is_empty (s : string) : bool :=
  match s with
  | EmptyString => true
  | String _ _ => false
  end.

(** The body of [if st.button(...)], with its [except] clauses tried in the
    order they are written.  The script gets there only with an API key
    entered. *)
Definition generar_estrategia (py : interpreter)
  (client : string -> completion)
  (json_schema product_name competitor_reviews : string)
  (st : session_state) : report * session_state :=
  if (is_empty product_name || is_empty competitor_reviews)%bool then
    (MissingInput, st)
  else
    match try_block py client json_schema product_name competitor_reviews st with
    | (inr _, st') => (Success, st')
    | (inl (ValidationError e), st') => (SchemaViolation e, st')
    | (inl JSONDecodeError, st') => (MalformedOutput, st')
    | (inl (Exception msg), st') => (TransportFailure msg, st')
    end.

(** The Response Validator on its own: the two steps on a response
    text.  [Unread] is neither of its two kinds of error: decoding the text
    ran into a limit of the interpreter. *)
Inductive validated : Type :=
| Valid (o : StrategyOutput)
| Malformed
| Violation (errors : list ErrorDetails)
| Unread (detail : string).

Definition response_validator (py : interpreter) (content : string)
  : validated :=
  match json_loads_within py content with
  | DecodeError => Malformed
  | LimitError msg => Unread msg
  | Loaded response_json =>
      match model_validate response_json with
      | inr o => Valid o
      | inl errors => Violation errors
      end
  end.

(* ================================================================= *)
(** * The Shopify hero section *)

Definition shopify_title (selected_angle : SalesAngle) (product_name : string)
  : string :=
  "¡" ++ avatar_name selected_angle ++ " Resuelto! El " ++ product_name.

Definition shopify_json_data (selected_angle : SalesAngle)
  (product_name : string) : json :=
  JObject [
    ("type", JString "hero_section");
    ("name", JString "Hero Section - Generated by AI");
    ("settings", JArray [
       JObject [("type", JString "text");
                ("id", JString "heading");
                ("label", JString "Heading");
                ("default", JString (shopify_title selected_angle product_name))];
       JObject [("type", JString "textarea");
                ("id", JString "text");
                ("label", JString "Text");
                ("default", JString (persuasive_copy selected_angle))];
       JObject [("type", JString "url");
                ("id", JString "button_link");
                ("label", JString "Button link")];
       JObject [("type", JString "text");
                ("id", JString "button_label");
                ("label", JString "Button label");
                ("default", JString "Comprar Ahora")]
    ])
  ].

(** [json.dumps(shopify_json_data, indent=4, ensure_ascii=False)]. *)
Definition json_output (selected_angle : SalesAngle) (product_name : string)
  : string :=
  json_dumps (Some 4) (shopify_json_data selected_angle product_name).

(** The output section: the angle chosen with the radio button is looked up
    in [st.session_state['angles']]; nothing is rendered when no result is
    stored, when the name is empty ([if selected_angle_name:]) or when it is
    not a key. *)
Definition hero_section (st : session_state)
  (selected_angle_name product_name : string) : option string :=
  match strategy st, angles st with
  | Some _, Some d =>
      if is_empty selected_angle_name then None
      else
        match Dict.get d selected_angle_name with
        | Some selected_angle => Some (json_output selected_angle product_name)
        | None => None
        end
  | _, _ => None
  end.

(** ** Reading a document back: the setting with a given [id] *)

Definition setting_has_id (id : string) (setting : json) : bool :=
  match setting with
  | JObject d =>
      match Dict.get d "id" with
      | Some (JString i) => String.eqb i id
      | _ => false
      end
  | _ => false
  end.

Definition setting (doc : json) (id : string) : option (Dict.t json) :=
  match doc with
  | JObject d =>
      match Dict.get d "settings" with
      | Some (JArray l) =>
          match find (setting_has_id id) l with
          | Some (JObject s) => Some s
          | _ => None
          end
      | _ => None
      end
  | _ => None
  end.

(** [x in s] for strings. *)
Definition substring_of (x s : string) : Prop :=
  exists pre post : string, s = pre ++ x ++ post.

(* ================================================================= *)
(** * Notions used to state the properties *)

(** The last angle of a sequence that bears a given name. *)
Definition last_named (name : string) (l : list SalesAngle) : option SalesAngle :=
  find (fun a => String.eqb (avatar_name a) name) (rev l).

Definition StrategyOutput_fields : list string :=
  ["main_pain_points"; "sales_angles"].

Definition SalesAngle_fields : list string :=
  ["avatar_name"; "pain_point_addressed"; "persuasive_copy"].

(** [lacks d e]: the object [d] lacks a required field, and [e] is the
    error entry that names it. *)
Inductive lacks (d : Dict.t json) : ErrorDetails -> Prop :=
| lacks_field (name : string) :
    In name StrategyOutput_fields ->
    Dict.get d name = None ->
    lacks d {| err_type := missing; err_loc := [Key name];
               err_input := JObject d |}
| lacks_angle_field (l : list json) (i : nat) (a : Dict.t json) (name : string) :
    Dict.get d "sales_angles" = Some (JArray l) ->
    nth_error l i = Some (JObject a) ->
    In name SalesAngle_fields ->
    Dict.get a name = None ->
    lacks d {| err_type := missing;
               err_loc := [Key "sales_angles"; Index i; Key name];
               err_input := JObject a |}.

(** [fails_with r e]: [r] is a failure and [e] is among its errors. *)
Definition fails_with {A : Type} (r : validation A) (e : ErrorDetails) : Prop :=
  exists errors, r = inl errors /\ In e errors.

(** What an entry of [sales_angles] must be for the angle [a] to come out
    of it: an object that holds the three strings of [a] under the three
    field names. *)
Definition angle_entry (e : json) (a : SalesAngle) : Prop :=
  exists d, e = JObject d
    /\ Dict.get d "avatar_name" = Some (JString (avatar_name a))
    /\ Dict.get d "pain_point_addressed" = Some (JString (pain_point_addressed a))
    /\ Dict.get d "persuasive_copy" = Some (JString (persuasive_copy a)).

(** Two dictionaries that hold the same thing under each of the given
    keys, whatever else they hold. *)
Definition agree_on (fields : list string) (d d' : Dict.t json) : Prop :=
  Forall (fun k => Dict.get d k = Dict.get d' k) fields.

(** Two entries of [sales_angles] that differ at most in keys that are
    not fields of [SalesAngle]. *)
Inductive same_angle_fields : json -> json -> Prop :=
| same_angle_refl (e : json) : same_angle_fields e e
| same_angle_object (a a' : Dict.t json) :
    agree_on SalesAngle_fields a a' ->
    same_angle_fields (JObject a) (JObject a').

(** Two objects that differ at most in keys that are not fields of
    [StrategyOutput] and, inside the entries of [sales_angles], in keys that
    are not fields of [SalesAngle]. *)
Inductive same_known_fields : json -> json -> Prop :=
| same_known_intro (d d' : Dict.t json) (l l' : list json) :
    Dict.get d "main_pain_points" = Dict.get d' "main_pain_points" ->
    Dict.get d "sales_angles" = Some (JArray l) ->
    Dict.get d' "sales_angles" = Some (JArray l') ->
    Forall2 same_angle_fields l l' ->
    same_known_fields (JObject d) (JObject d').

(** Pairwise distinct keys. *)
Fixpoint distinct (keys : list string) : bool :=
  match keys with
  | [] => true
  | k :: rest => (negb (existsb (String.eqb k) rest) && distinct rest)%bool
  end.

(** The values [json_loads] gives back unchanged after [json_dumps]: no
    float (a float is not written as it was read), and dictionaries with
    distinct keys, as every Python [dict] has. *)
Fixpoint dumpable (v : json) : bool :=
  match v with
  | JFloat _ => false
  | JArray items => forallb dumpable items
  | JObject members =>
      (distinct (map fst members)
       && forallb (fun kv => dumpable (snd kv)) members)%bool
  | _ => true
  end.

(** How [scan_units] reads back what [escape_char] writes for a
    character: as the character, or as the escape of its code. *)
Definition unit_of (c : ascii) : str_unit :=
  if (Ascii.eqb c dquote || Ascii.eqb c backslash || Ascii.eqb c "008"
      || Ascii.eqb c "012" || Ascii.eqb c "010" || Ascii.eqb c "013"
      || Ascii.eqb c "009")%bool then Raw c
  else if (N_of_ascii c <? 32)%N then Esc16 (N_of_ascii c)
  else Raw c.

(** The outcome of a scan is the expected one, unless fuel ran out. *)
Definition agrees {A : Type} (r : scan A) (a : A) (rest : string) : Prop :=
  r = Done a rest \/ r = OutOfFuel.

(** What the probe of a text says is what the scan of it gives, as long
    as no limit is met. *)
Definition shadows {A : Type} (p : probe) (r : scan A) : Prop :=
  match p with
  | Passed rest => exists a, r = Done a rest
  | Failed => r = Stop
  | Exhausted => r = OutOfFuel
  | Exceeded _ => True
  end.

(** A text made of whitespace only. *)
Fixpoint all_ws (s : string) : bool :=
  match s with
  | EmptyString => true
  | String c s' => (is_ws c && all_ws s')%bool
  end.

(** A text whose first character is neither whitespace nor a closing
    bracket, as the text of every value is. *)
Definition starts_value (s : string) : bool :=
  match s with
  | String c _ => negb (is_ws c || Ascii.eqb c "]")
  | EmptyString => false
  end.

(** What may follow a number in a text for the number to end there. *)
Definition number_end (rest : string) : bool :=
  match rest with
  | EmptyString => true
  | String c _ =>
      negb (is_digit c || Ascii.eqb c "." || Ascii.eqb c "e"
            || Ascii.eqb c "E")%bool
  end.

(** [reads_back text v]: [text] starts as a value does and, followed by
    anything a number may end before, scans as [v] with that text left. *)
Definition reads_back (text : string) (v : json) : Prop :=
  (forall tail, starts_value (text ++ tail) = true)
  /\ forall tail fuel, number_end tail = true ->
       agrees (scan_once fuel (text ++ tail)) v tail.

(** The text [dumps] writes for a member of a dictionary. *)
Definition member_text (enc : JSONEncoder) (level : nat)
  (kv : string * json) : string :=
  encode_basestring (fst kv) ++ key_separator enc ++ dumps enc level (snd kv).

(** Separators that are a comma and a colon, each followed by whitespace
    only: those of [json.dumps], with an indent or without. *)
Definition separators_ok (enc : JSONEncoder) : bool :=
  match item_separator enc, key_separator enc with
  | String c1 w1, String c2 w2 =>
      (Ascii.eqb c1 "," && all_ws w1 && Ascii.eqb c2 ":" && all_ws w2)%bool
  | _, _ => false
  end.

(** Induction on values, with the hypothesis for every item of a list and
    every value of a dictionary. *)
Definition json_nested_ind (P : json -> Prop)
  (Hnull : P JNull)
  (Hbool : forall b, P (JBool b))
  (Hint : forall z, P (JInt z))
  (Hfloat : forall lexeme, P (JFloat lexeme))
  (Hstring : forall s, P (JString s))
  (Harray : forall items, Forall P items -> P (JArray items))
  (Hobject : forall members,
      Forall (fun kv => P (snd kv)) members -> P (JObject members))
  : forall v, P v :=
  fix F (v : json) : P v :=
    match v with
    | JNull => Hnull
    | JBool b => Hbool b
    | JInt z => Hint z
    | JFloat lexeme => Hfloat lexeme
    | JString s => Hstring s
    | JArray items =>
        Harray items
          ((fix G (l : list json) : Forall P l :=
              match l with
              | [] => Forall_nil P
              | x :: l' => Forall_cons x (F x) (G l')
              end) items)
    | JObject members =>
        Hobject members
          ((fix G (l : list (string * json))
              : Forall (fun kv => P (snd kv)) l :=
              match l with
              | [] => Forall_nil _
              | kv :: l' => Forall_cons kv (F (snd kv)) (G l')
              end) members)
    end.

(** ** Sample responses and sessions *)

Definition quoted (s : string) : string := String dquote (s ++ String dquote "").

(** The response of scenario A. *)
Definition scenario_A_response : string :=
  "{" ++ quoted "main_pain_points" ++ ": [" ++ quoted "noise" ++ ", "
  ++ quoted "leaks" ++ ", " ++ quoted "price" ++ "], "
  ++ quoted "sales_angles" ++ ": [{" ++ quoted "avatar_name" ++ ": "
  ++ quoted "The Skeptic" ++ ", " ++ quoted "pain_point_addressed" ++ ": "
  ++ quoted "noise" ++ ", " ++ quoted "persuasive_copy" ++ ": "
  ++ quoted "..." ++ "}]}".

Definition the_skeptic : SalesAngle :=
  {| avatar_name := "The Skeptic"; pain_point_addressed := "noise";
     persuasive_copy := "..." |}.

Definition scenario_A_output : StrategyOutput :=
  {| main_pain_points := ["noise"; "leaks"; "price"];
     sales_angles := [the_skeptic] |}.

(** The response of scenario C. *)
Definition scenario_C_response : string :=
  "{" ++ quoted "main_pain_points" ++ ": [" ++ quoted "x" ++ "]}".

(** A response whose two lists are empty. *)
Definition empty_lists_response : string :=
  "{" ++ quoted "main_pain_points" ++ ": [], "
  ++ quoted "sales_angles" ++ ": []}".

(** An object whose only angle has three empty strings. *)
Definition empty_strings_object : json :=
  JObject [("main_pain_points", JArray []);
           ("sales_angles",
            JArray [JObject [("avatar_name", JString "");
                             ("pain_point_addressed", JString "");
                             ("persuasive_copy", JString "")]])].

(** The interpreter of the examples: CPython with its default limit on
    digits and room for 900 nested containers. *)
Definition py3 : interpreter := cpython 900 4300.

(** [n] times the digit 1: ['1' * n]. *)
Fixpoint ones (n : nat) : string :=
  match n with
  | O => ""
  | S n' => String "1" (ones n')
  end.

(** [n] opening brackets: ['[' * n]. *)
Fixpoint brackets (n : nat) : string :=
  match n with
  | O => ""
  | S n' => String "[" (brackets n')
  end.

(** A client that answers every prompt with the same text. *)
Definition answers (content : string) : string -> completion :=
  fun _ => Returned (Some content).

Definition empty_session : session_state :=
  {| strategy := None; angles := None |}.

(** The session after scenario A. *)
Definition scenario_A_session : session_state :=
  {| strategy := Some scenario_A_output;
     angles := Some [("The Skeptic", the_skeptic)] |}.

(* ================================================================= *)
(** * The output section and the script as a whole *)

(** ["\n".join([f"- {pp}" for pp in ...main_pain_points])]. *)
Definition pain_points_markdown (o : StrategyOutput) : string :=
  join (String newline "") (map (fun pp => "- " ++ pp) (main_pain_points o)).

(** What is shown for the selected angle: the three [st.markdown] lines
    that carry its fields, and the text given to [st.code]. *)
Record angle_view : Type := {
  angulo : string;
  dolor_abordado : string;
  copy : string;
  code : string
}.

Definition view_angle (selected_angle : SalesAngle) (product_name : string)
  : angle_view :=
  {| angulo := "**Ángulo:** " ++ avatar_name selected_angle;
     dolor_abordado :=
       "**Dolor Abordado:** " ++ pain_point_addressed selected_angle;
     copy := "**Copy:** *" ++ persuasive_copy selected_angle ++ "*";
     code := json_output selected_angle product_name |}.

(** The parts of the output section that depend on the session: the
    markdown of the pain points, the options given to [st.radio], and the
    view of the selected angle when there is one (the fixed headers and
    rules are left out). *)
Record results_view : Type := {
  pain_points : string;
  angle_options : list string;
  selected : option angle_view
}.

(** The output section is skipped (no ['strategy'] key), ends in an
    uncaught [KeyError], or is shown. *)
Inductive section : Type :=
| NotShown
| KeyError (key : string)
| Shown (v : results_view).

(** [if 'strategy' in st.session_state: ...].  [radio] is [st.radio]: from
    the options it is given, the option selected ([None] when it is given
    none). *)
Definition output_section (radio : list string -> option string)
  (product_name : string) (st : session_state) : section :=
  match strategy st with
  | None => NotShown
  | Some o =>
      match angles st with
      | None => KeyError "angles"
      | Some d =>
          let options := Dict.keys d in
          match radio options with
          | None =>
              Shown {| pain_points := pain_points_markdown o;
                       angle_options := options; selected := None |}
          | Some selected_angle_name =>
              if is_empty selected_angle_name then
                Shown {| pain_points := pain_points_markdown o;
                         angle_options := options; selected := None |}
              else
                match Dict.get d selected_angle_name with
                | None => KeyError selected_angle_name
                | Some selected_angle =>
                    Shown {| pain_points := pain_points_markdown o;
                             angle_options := options;
                             selected :=
                               Some (view_angle selected_angle product_name) |}
                end
          end
      end
  end.

(** The messages a run can show before the output section: the
    [st.warning] about the API key, the [st.error] about the client, and
    the message of the button handler. *)
Inductive notice : Type :=
| KeyWarning
| InitError (msg : string)
| Report (r : report).

(** A run of the script: its messages, whether it ended in [st.stop()],
    and its output section. *)
Record page : Type := {
  notices : list notice;
  halted : bool;
  results : section
}.

Definition halt (n : notice) : page :=
  {| notices := [n]; halted := true; results := NotShown |}.

(** The script from the API key check on.  [OpenAI] is the constructor of
    the client: an exception, or a client; [button] is what
    [st.button(...)] returns.  Each [except] clause of the handler ends in
    [st.stop()]; the input check and the success do not. *)
Definition script (py : interpreter) (openai_api_key : string)
  (OpenAI : string -> string + (string -> completion))
  (json_schema product_name competitor_reviews : string) (button : bool)
  (radio : list string -> option string) (st : session_state)
  : page * session_state :=
  if is_empty openai_api_key then (halt KeyWarning, st)
  else
    match OpenAI openai_api_key with
    | inl e => (halt (InitError e), st)
    | inr client =>
        if button then
          match generar_estrategia py client json_schema product_name
                  competitor_reviews st with
          | (Success, st') =>
              ({| notices := [Report Success]; halted := false;
                  results := output_section radio product_name st' |}, st')
          | (MissingInput, st') =>
              ({| notices := [Report MissingInput]; halted := false;
                  results := output_section radio product_name st' |}, st')
          | (r, st') => (halt (Report r), st')
          end
        else
          ({| notices := []; halted := false;
              results := output_section radio product_name st |}, st)
    end.

(** ** Notions used to state the properties of the output section *)

(** What [st.radio] promises: one of the options it is given, and [None]
    only when it is given none. *)
Definition radio_ok (radio : list string -> option string) : Prop :=
  forall options,
    match radio options with
    | Some x => In x options
    | None => options = []
    end.

(** The radio as it is before the user touches it: the first option. *)
Definition first_option (options : list string) : option string :=
  hd_error options.

(** The lookup stored is the one derived from the result stored. *)
Definition consistent (st : session_state) : Prop :=
  match strategy st, angles st with
  | None, None => True
  | Some o, Some d => d = angles_of o
  | _, _ => False
  end.

(** The names of a list, each kept once, at its first place. *)
Definition first_occurrences (names : list string) : list string :=
  fold_left
    (fun acc k => if existsb (String.eqb k) acc then acc else (acc ++ [k])%list)
    names [].

(** [s.startswith(x)]. *)
Definition starts_with (x s : string) : Prop :=
  exists post : string, s = x ++ post.

(** The review text between its two rules, as the prompt has it: three
    lines at the indentation of the f-string, from the line break before
    the first rule to the one after the second. *)
Definition fenced (competitor_reviews : string) : string :=
  String newline (spaces 16) ++ "---"
  ++ String newline (spaces 16) ++ competitor_reviews
  ++ String newline (spaces 16) ++ "---" ++ String newline "".

(** [s.split("\n")]. *)
Fixpoint lines (s : string) : list string :=
  match s with
  | EmptyString => [""]
  | String c s' =>
      if Ascii.eqb c newline then "" :: lines s'
      else
        match lines s' with
        | l :: rest => String c l :: rest
        | [] => [String c ""]
        end
  end.

Fixpoint no_newline (s : string) : bool :=
  match s with
  | EmptyString => true
  | String c s' => (negb (Ascii.eqb c newline) && no_newline s')%bool
  end.

Definition is_string (v : json) : bool :=
  match v with
  | JString _ => true
  | _ => false
  end.

Definition is_array (v : json) : bool :=
  match v with
  | JArray _ => true
  | _ => false
  end.

Definition is_object (v : json) : bool :=
  match v with
  | JObject _ => true
  | _ => false
  end.

(** [mistyped d e]: the object [d] holds a value of the wrong type where
    the schema wants a list, a string or an object, and [e] is the error
    entry for it. *)
Inductive mistyped (d : Dict.t json) : ErrorDetails -> Prop :=
| mistyped_list (name : string) (v : json) :
    In name StrategyOutput_fields ->
    Dict.get d name = Some v ->
    is_array v = false ->
    mistyped d {| err_type := list_type; err_loc := [Key name];
                  err_input := v |}
| mistyped_pain_point (l : list json) (i : nat) (v : json) :
    Dict.get d "main_pain_points" = Some (JArray l) ->
    nth_error l i = Some v ->
    is_string v = false ->
    mistyped d {| err_type := string_type;
                  err_loc := [Key "main_pain_points"; Index i];
                  err_input := v |}
| mistyped_angle (l : list json) (i : nat) (v : json) :
    Dict.get d "sales_angles" = Some (JArray l) ->
    nth_error l i = Some v ->
    is_object v = false ->
    mistyped d {| err_type := model_type;
                  err_loc := [Key "sales_angles"; Index i];
                  err_input := v |}
| mistyped_angle_field (l : list json) (i : nat) (a : Dict.t json)
    (name : string) (v : json) :
    Dict.get d "sales_angles" = Some (JArray l) ->
    nth_error l i = Some (JObject a) ->
    In name SalesAngle_fields ->
    Dict.get a name = Some v ->
    is_string v = false ->
    mistyped d {| err_type := string_type;
                  err_loc := [Key "sales_angles"; Index i; Key name];
                  err_input := v |}.

(** A session that holds a result whose second angle has an empty name,
    and one that holds two angles of the same name. *)
Definition nameless : SalesAngle :=
  {| avatar_name := ""; pain_point_addressed := "price";
     persuasive_copy := "Pay less." |}.

Definition session_of (o : StrategyOutput) : session_state :=
  {| strategy := Some o; angles := Some (angles_of o) |}.

Definition nameless_output : StrategyOutput :=
  {| main_pain_points := ["noise"; "price"];
     sales_angles := [the_skeptic; nameless] |}.

(** The constructor of a client that answers every prompt with the same
    text, whatever the key. *)
Definition OpenAI_answers (content : string)
  : string -> string + (string -> completion) :=
  fun _ => inr (answers content).

(* ================================================================= *)
(** * Dictionaries *)

Module DictFacts.

Lemma get_set_same {A : Type} (d : Dict.t A) (k : string) (v : A) :
  Dict.get (Dict.set d k v) k = Some v.
Proof.
  induction d as [|[k' v'] d IH]; simpl.
  - now rewrite String.eqb_refl.
  - destruct (String.eqb k' k) eqn:E; simpl; rewrite E; auto.
Qed.

Lemma get_set_other {A : Type} (d : Dict.t A) (k k' : string) (v : A) :
  k <> k' -> Dict.get (Dict.set d k v) k' = Dict.get d k'.
Proof.
  intros Hne. induction d as [|[k0 v0] d IH]; simpl.
  - destruct (String.eqb_spec k k'); [contradiction | reflexivity].
  - destruct (String.eqb_spec k0 k) as [->|Hk]; simpl.
    + destruct (String.eqb_spec k k'); [contradiction | reflexivity].
    + destruct (String.eqb k0 k'); auto.
Qed.

Lemma keys_set {A : Type} (d : Dict.t A) (k : string) (v : A) (x : string) :
  In x (Dict.keys (Dict.set d k v)) <-> x = k \/ In x (Dict.keys d).
Proof.
  unfold Dict.keys. induction d as [|[k0 v0] d IH]; simpl.
  - intuition.
  - destruct (String.eqb_spec k0 k) as [->|Hk]; simpl.
    + intuition.
    + rewrite IH. intuition.
Qed.

Lemma set_fresh {A : Type} (d : Dict.t A) (k : string) (v : A) :
  ~ In k (Dict.keys d) -> Dict.set d k v = (d ++ [(k, v)])%list.
Proof.
  unfold Dict.keys. induction d as [|[k0 v0] d IH]; simpl; intros Hn.
  - reflexivity.
  - destruct (String.eqb_spec k0 k) as [->|Hk]; [tauto|].
    rewrite IH; tauto.
Qed.

(** Inserting pairs with fresh, distinct keys appends them. *)
Lemma fold_set_fresh {A : Type} (l : list (string * A)) (acc : Dict.t A) :
  NoDup (map fst l) ->
  (forall k, In k (map fst l) -> ~ In k (Dict.keys acc)) ->
  fold_left (fun d kv => Dict.set d (fst kv) (snd kv)) l acc = (acc ++ l)%list.
Proof.
  revert acc. induction l as [|[k v] l IH]; simpl; intros acc Hnd Hfresh.
  - now rewrite app_nil_r.
  - inversion Hnd as [|? ? Hk Hnd']; subst.
    rewrite set_fresh by (apply Hfresh; auto).
    rewrite IH; auto.
    + now rewrite <- app_assoc.
    + intros k' Hin. unfold Dict.keys. rewrite map_app, in_app_iff. simpl.
      intros [Hacc|[<-|[]]].
      * apply (Hfresh k'); auto.
      * contradiction.
Qed.

Lemma distinct_NoDup (keys : list string) :
  distinct keys = true -> NoDup keys.
Proof.
  induction keys as [|k keys IH]; simpl; intros H; constructor.
  - apply andb_prop in H as [H _]. intros Hin.
    assert (existsb (String.eqb k) keys = true) as E.
    { apply existsb_exists. exists k. split; auto. apply String.eqb_refl. }
    rewrite E in H. discriminate.
  - apply andb_prop in H as [_ H]. auto.
Qed.

(** [dict(pairs)] of pairs with distinct keys is the pairs themselves. *)
Lemma of_pairs_distinct {A : Type} (l : list (string * A)) :
  distinct (map fst l) = true -> Dict.of_pairs l = l.
Proof.
  intros H. unfold Dict.of_pairs.
  rewrite fold_set_fresh; auto using distinct_NoDup.
Qed.

Lemma find_app_last {A : Type} (f : A -> bool) (l : list A) (x : A) :
  find f (l ++ [x]) =
  match find f l with
  | Some y => Some y
  | None => if f x then Some x else None
  end.
Proof.
  induction l as [|y l IH]; simpl; [reflexivity|].
  destruct (f y); auto.
Qed.

(** What a sequence of insertions leaves under a key: the value of the
    last pair with that key, or else what was there before. *)
Lemma get_fold_set {A : Type} (l : list (string * A)) (acc : Dict.t A)
  (k : string) :
  Dict.get (fold_left (fun d kv => Dict.set d (fst kv) (snd kv)) l acc) k =
  match find (fun kv => String.eqb (fst kv) k) (rev l) with
  | Some kv => Some (snd kv)
  | None => Dict.get acc k
  end.
Proof.
  revert acc. induction l as [|[k0 v0] l IH]; simpl; intros acc; [reflexivity|].
  rewrite IH, find_app_last.
  destruct (find (fun kv => String.eqb (fst kv) k) (rev l)) as [kv|]; auto.
  simpl. destruct (String.eqb_spec k0 k) as [->|Hk].
  - apply get_set_same.
  - now apply get_set_other.
Qed.

Lemma keys_fold_set {A : Type} (l : list (string * A)) (acc : Dict.t A)
  (k : string) :
  In k (Dict.keys (fold_left (fun d kv => Dict.set d (fst kv) (snd kv)) l acc))
  <-> In k (map fst l) \/ In k (Dict.keys acc).
Proof.
  revert acc. induction l as [|[k0 v0] l IH]; simpl; intros acc.
  - tauto.
  - rewrite IH, keys_set. intuition.
Qed.

End DictFacts.

(* ================================================================= *)
(** * The avatar-name lookup *)

Lemma find_rev_map_angle (name : string) (l : list SalesAngle) :
  find (fun kv : string * SalesAngle => String.eqb (fst kv) name)
    (rev (map (fun angle => (avatar_name angle, angle)) l))
  = option_map (fun a => (avatar_name a, a)) (last_named name l).
Proof.
  unfold last_named. rewrite <- map_rev.
  induction (rev l) as [|a r IH]; simpl; [reflexivity|].
  destruct (String.eqb (avatar_name a) name); auto.
Qed.

(** C6. The lookup stored under ['angles'] maps a name to the last angle of
    [sales_angles] that bears it (an angle met later in the iteration
    overwrites an earlier one of the same name), to nothing when no angle
    bears it, and the name of every angle of [sales_angles] is one of its
    keys. *)
Theorem angles_last_write_wins (strategy_output : StrategyOutput) (name : string) :
  Dict.get (angles_of strategy_output) name
  = last_named name (sales_angles strategy_output)
  /\ Forall (fun a => In (avatar_name a) (Dict.keys (angles_of strategy_output)))
       (sales_angles strategy_output).
Proof.
  unfold angles_of, Dict.of_pairs. split.
  - rewrite DictFacts.get_fold_set, find_rev_map_angle.
    destruct (last_named name (sales_angles strategy_output)); reflexivity.
  - apply Forall_forall. intros a Ha.
    apply DictFacts.keys_fold_set. left.
    rewrite map_map. simpl. apply in_map_iff. eauto.
Qed.

(** Two angles of the same name: the later one is the one kept. *)
Example angles_duplicate_name :
  let first := {| avatar_name := "A"; pain_point_addressed := "p1";
                  persuasive_copy := "c1" |} in
  let other := {| avatar_name := "B"; pain_point_addressed := "p2";
                  persuasive_copy := "c2" |} in
  let second := {| avatar_name := "A"; pain_point_addressed := "p3";
                   persuasive_copy := "c3" |} in
  angles_of {| main_pain_points := []; sales_angles := [first; other; second] |}
  = [("A", second); ("B", other)].
Proof. reflexivity. Qed.

(* ================================================================= *)
(** * The prompt *)

Lemma substring_here (x s : string) : substring_of x (x ++ s).
Proof. exists "", s. reflexivity. Qed.

Lemma append_assoc (a b c : string) : (a ++ b) ++ c = a ++ b ++ c.
Proof. induction a as [|ch a IH]; simpl; [reflexivity | now rewrite IH]. Qed.

Lemma append_nil_r (a : string) : a ++ "" = a.
Proof. induction a as [|ch a IH]; simpl; [reflexivity | now rewrite IH]. Qed.

Lemma substring_later (x t s : string) :
  substring_of x s -> substring_of x (t ++ s).
Proof.
  intros (pre & post & ->). exists (t ++ pre), post. now rewrite append_assoc.
Qed.

Lemma substring_skip (x : string) (c : ascii) (s : string) :
  substring_of x s -> substring_of x (String c s).
Proof. apply (substring_later x (String c "") s). Qed.

Lemma substring_refl (x : string) : substring_of x x.
Proof. exists "", "". simpl. now rewrite append_nil_r. Qed.

(** C8. The prompt holds the product name and the review text as they were
    given, byte for byte (for any two strings, the non-empty ones the
    handler lets through among them). *)
Theorem prompt_contains_inputs
  (product_name competitor_reviews json_schema : string) :
  substring_of product_name (prompt product_name competitor_reviews json_schema)
  /\ substring_of competitor_reviews
       (prompt product_name competitor_reviews json_schema).
Proof.
  unfold prompt. split;
    repeat first [ apply substring_here | apply substring_refl
                 | apply substring_later | apply substring_skip ].
Qed.

(* ================================================================= *)
(** * The handler *)

(** The [try] block, case by case. *)
Lemma try_block_cases (py : interpreter)
  (client : string -> completion)
  (json_schema product_name competitor_reviews : string) (st : session_state) :
  try_block py client json_schema product_name competitor_reviews st =
  match client (prompt product_name competitor_reviews json_schema) with
  | Raised msg => (inl (Exception msg), st)
  | Returned None =>
      (inl (Exception
         "the JSON object must be str, bytes or bytearray, not NoneType"), st)
  | Returned (Some content) =>
      match json_loads_within py content with
      | DecodeError => (inl JSONDecodeError, st)
      | LimitError msg => (inl (Exception msg), st)
      | Loaded response_json =>
          match model_validate response_json with
          | inl errors => (inl (ValidationError errors), st)
          | inr strategy_output =>
              (inr tt, {| strategy := Some strategy_output;
                          angles := Some (angles_of strategy_output) |})
          end
      end
  end.
Proof.
  unfold try_block, bind, create, loads, validate, raise, ret.
  destruct (client _) as [msg|[content|]]; try reflexivity.
  destruct (json_loads_within py content) as [response_json| |msg];
    try reflexivity.
  destruct (model_validate response_json); reflexivity.
Qed.

(** What [json.loads] returns on an interpreter is what it returns when no
    limit is reached. *)
Lemma json_loads_within_loaded (py : interpreter) (s : string) (v : json) :
  json_loads_within py s = Loaded v <->
  exceeds_limit py s = None /\ json_loads s = Some v.
Proof.
  unfold json_loads_within.
  destruct (exceeds_limit py s); [split; [discriminate | intros [H _]; discriminate]|].
  destruct (json_loads s); split; try discriminate.
  - intros [= ->]. auto.
  - intros [_ [= ->]]. reflexivity.
  - intros [_ H]. discriminate.
Qed.

Lemma json_loads_within_decode_error (py : interpreter) (s : string) :
  json_loads_within py s = DecodeError <->
  exceeds_limit py s = None /\ json_loads s = None.
Proof.
  unfold json_loads_within.
  destruct (exceeds_limit py s); [split; [discriminate | intros [H _]; discriminate]|].
  destruct (json_loads s); split; try discriminate; auto.
  intros [_ H]. discriminate.
Qed.


(** C3. An attempt that ends in anything but the success message, whichever
    error it is (missing input included), leaves the session state as it
    was: both writes come after everything that can raise. *)
Theorem store_unchanged_on_error (py : interpreter)
  (client : string -> completion)
  (json_schema product_name competitor_reviews : string) (st : session_state) :
  fst (generar_estrategia py client json_schema product_name competitor_reviews st)
    <> Success ->
  snd (generar_estrategia py client json_schema product_name competitor_reviews st)
    = st.
Proof.
  unfold generar_estrategia.
  destruct (is_empty product_name || is_empty competitor_reviews)%bool;
    [reflexivity|].
  rewrite try_block_cases.
  destruct (client _) as [msg|[content|]]; try reflexivity.
  destruct (json_loads_within py content) as [response_json| |msg];
    try reflexivity.
  destruct (model_validate response_json); simpl; [reflexivity|].
  intros H. now contradiction H.
Qed.

(** Scenario B, after scenario A: [MalformedOutput], and the stored result
    of scenario A is still there. *)
Lemma store_unchanged_on_error_witness :
  fst (generar_estrategia py3 (answers "not json") "{}" "Silent Blender" "too loud"
         scenario_A_session) = MalformedOutput
  /\ snd (generar_estrategia py3 (answers "not json") "{}" "Silent Blender"
            "too loud" scenario_A_session) = scenario_A_session.
Proof.
  split.
  - vm_compute. reflexivity.
  - apply (store_unchanged_on_error py3 (answers "not json") "{}" "Silent Blender"
             "too loud" scenario_A_session).
    vm_compute. discriminate.
Defined.

(** ** A response nested deeper than the interpreter allows *)

Lemma skip_ws_brackets (n : nat) : skip_ws (brackets n) = brackets n.
Proof. destruct n; reflexivity. Qed.

Lemma brackets_length (n : nat) : String.length (brackets n) = n.
Proof. induction n; simpl; congruence. Qed.

(** Opening brackets alone are no value, however many. *)
Lemma scan_brackets (fuel : nat) :
  (forall n v rest, scan_once fuel (brackets n) <> Done v rest)
  /\ (forall n vs rest, parse_items fuel (brackets n) <> Done vs rest).
Proof.
  induction fuel as [|fuel [IHs IHi]]; [split; discriminate|]. split.
  - intros [|n] v rest; [discriminate|].
    cbn [brackets scan_once]. change (Ascii.eqb "[" dquote) with false.
    change (Ascii.eqb "[" "{") with false. change (Ascii.eqb "[" "[") with true.
    cbv iota. rewrite skip_ws_brackets.
    destruct n as [|n]; [discriminate|].
    cbn [brackets]. change (Ascii.eqb "[" "]") with false. cbv iota.
    specialize (IHi (S n)). cbn [brackets] in IHi.
    destruct (parse_items fuel (String "[" (brackets n))) as [vs r| |];
      simpl; try discriminate.
    now contradiction (IHi vs r).
  - intros n vs rest. cbn [parse_items].
    specialize (IHs n).
    destruct (scan_once fuel (brackets n)) as [v r| |]; try discriminate.
    now contradiction (IHs v r).
Qed.

Lemma json_loads_brackets (n : nat) : json_loads (brackets n) = None.
Proof.
  unfold json_loads. rewrite skip_ws_brackets.
  pose proof (proj1 (scan_brackets (S (2 * String.length (brackets n)))) n) as H.
  destruct (scan_once _ (brackets n)) as [v r| |]; try reflexivity.
  now contradiction (H v r).
Qed.

(** Entering one container more than there is room for raises. *)
Lemma probe_brackets (max_digits depth : nat) :
  forall n fuel, depth < n -> 2 * depth < fuel ->
    probe_once max_digits depth fuel (brackets n)
    = Exceeded (RecursionError "array").
Proof.
  induction depth as [|depth IH]; intros n fuel Hn Hf.
  - destruct n as [|n]; [lia|]. destruct fuel as [|fuel]; [lia|]. reflexivity.
  - destruct n as [|[|n]]; try lia.
    destruct fuel as [|[|fuel]]; try lia.
    cbn [brackets probe_once]. change (Ascii.eqb "[" dquote) with false.
    change (Ascii.eqb "[" "{") with false. change (Ascii.eqb "[" "[") with true.
    cbv iota. change (String "[" (brackets n)) with (brackets (S n)).
    rewrite skip_ws_brackets. cbn [brackets].
    change (Ascii.eqb "[" "]") with false. cbv iota.
    cbn [probe_items]. change (String "[" (brackets n)) with (brackets (S n)).
    rewrite (IH (S n) fuel) by lia. reflexivity.
Qed.

Lemma cpython_brackets (recursion_headroom max_str_digits n : nat) :
  recursion_headroom < n ->
  exceeds_limit (cpython recursion_headroom max_str_digits) (brackets n)
  = Some (message (RecursionError "array")).
Proof.
  intros H. unfold cpython, exceeds_limit.
  rewrite skip_ws_brackets, brackets_length, probe_brackets by lia.
  reflexivity.
Qed.

(** C4, where the code departs from it.  A response made of opening
    brackets is no JSON ([json_loads] rejects it, however many they are),
    and yet, on an interpreter that runs into a limit while decoding it, it
    is not reported as [MalformedOutput]: what [json.loads] raises there
    is no [json.JSONDecodeError], and the handler shows the message of
    [except Exception], the one about the communication with the API. *)
Theorem deep_nesting_is_transport_failure (py : interpreter)
  (client : string -> completion)
  (json_schema product_name competitor_reviews detail : string)
  (st : session_state) (n : nat) :
  is_empty product_name = false ->
  is_empty competitor_reviews = false ->
  client (prompt product_name competitor_reviews json_schema)
    = Returned (Some (brackets n)) ->
  exceeds_limit py (brackets n) = Some detail ->
  json_loads (brackets n) = None
  /\ response_validator py (brackets n) = Unread detail
  /\ generar_estrategia py client json_schema product_name
       competitor_reviews st
     = (TransportFailure detail, st).
Proof.
  intros Hp Hr Hc Hl. split; [apply json_loads_brackets|]. split.
  - unfold response_validator, json_loads_within. now rewrite Hl.
  - unfold generar_estrategia. rewrite Hp, Hr. simpl.
    rewrite try_block_cases, Hc. unfold json_loads_within. now rewrite Hl.
Qed.

(** A thousand opening brackets, with room for nine hundred containers,
    after scenario A. *)
Lemma deep_nesting_is_transport_failure_witness :
  json_loads (brackets 1000) = None
  /\ response_validator py3 (brackets 1000)
     = Unread "maximum recursion depth exceeded while decoding a JSON array from a unicode string"
  /\ generar_estrategia py3 (answers (brackets 1000)) "{}" "Silent Blender"
       "too loud" scenario_A_session
     = (TransportFailure
          "maximum recursion depth exceeded while decoding a JSON array from a unicode string",
        scenario_A_session).
Proof.
  apply (deep_nesting_is_transport_failure py3 (answers (brackets 1000)) "{}"
           "Silent Blender" "too loud"
           "maximum recursion depth exceeded while decoding a JSON array from a unicode string"
           scenario_A_session 1000).
  - reflexivity.
  - reflexivity.
  - reflexivity.
  - vm_compute. reflexivity.
Defined.

(** Within the limit the same kind of text is reported as malformed. *)
Example shallow_nesting_is_malformed :
  generar_estrategia py3 (answers (brackets 900)) "{}" "Silent Blender"
    "too loud" empty_session = (MalformedOutput, empty_session).
Proof. vm_compute. reflexivity. Qed.

(** An integer of 4301 digits is JSON, and is reported as a failure of the
    call as well; one of 4300 digits is a schema violation, as any number
    is. *)
Example long_integer_is_transport_failure :
  (exists z, json_loads (ones 4301) = Some (JInt z))
  /\ generar_estrategia py3 (answers (ones 4301)) "{}" "Silent Blender"
       "too loud" empty_session
     = (TransportFailure
          "Exceeds the limit (4300 digits) for integer string conversion: value has 4301 digits; use sys.set_int_max_str_digits() to increase the limit",
        empty_session)
  /\ (exists z,
        generar_estrategia py3 (answers (ones 4300)) "{}" "Silent Blender"
          "too loud" empty_session
        = (SchemaViolation [{| err_type := model_type; err_loc := [];
                               err_input := JInt z |}], empty_session)).
Proof.
  split; [eexists; vm_compute; reflexivity|].
  split; [vm_compute; reflexivity|].
  eexists. vm_compute. reflexivity.
Qed.

(* ================================================================= *)
(** * Validation *)

Lemma ap_inr_inv {A B : Type} (f : validation (A -> B)) (x : validation A)
  (b : B) :
  ap f x = inr b -> exists g a, f = inr g /\ x = inr a /\ b = g a.
Proof.
  destruct f as [e1|g], x as [e2|a]; simpl; try discriminate.
  intros H. injection H as <-. eauto.
Qed.

Lemma ap_fails_l {A B : Type} (f : validation (A -> B)) (x : validation A)
  (e : ErrorDetails) :
  fails_with f e -> fails_with (ap f x) e.
Proof.
  intros (es & -> & Hin). destruct x as [e2|a]; simpl.
  - exists (es ++ e2)%list. split; auto. apply in_or_app; auto.
  - exists es; auto.
Qed.

Lemma ap_fails_r {A B : Type} (f : validation (A -> B)) (x : validation A)
  (e : ErrorDetails) :
  fails_with x e -> fails_with (ap f x) e.
Proof.
  intros (es & -> & Hin). destruct f as [e1|g]; simpl.
  - exists (e1 ++ es)%list. split; auto. apply in_or_app; auto.
  - exists es; auto.
Qed.

Lemma validate_field_inr_inv {A : Type}
  (validator : list LocItem -> json -> validation A)
  (loc : list LocItem) (d : Dict.t json) (name : string) (a : A) :
  validate_field validator loc d name = inr a ->
  exists v, Dict.get d name = Some v
            /\ validator (loc ++ [Key name])%list v = inr a.
Proof.
  unfold validate_field. destruct (Dict.get d name) as [v|]; [eauto|discriminate].
Qed.

Lemma validate_str_inr_inv (loc : list LocItem) (v : json) (s : string) :
  validate_str loc v = inr s -> v = JString s.
Proof. destruct v; simpl; try discriminate. now intros [= ->]. Qed.

Lemma validate_items_inr_inv {A : Type}
  (item : list LocItem -> json -> validation A)
  (loc : list LocItem) (i : nat) (l : list json) (r : list A) :
  validate_items item loc i l = inr r ->
  Forall2 (fun x a => exists loc', item loc' x = inr a) l r.
Proof.
  revert i r. induction l as [|x l IH]; simpl; intros i r H.
  - injection H as <-. constructor.
  - apply ap_inr_inv in H as (g & tl & Hg & Htl & ->).
    apply ap_inr_inv in Hg as (g' & a & Hc & Ha & ->).
    injection Hc as <-. constructor; eauto.
Qed.

Lemma validate_list_inr_inv {A : Type}
  (item : list LocItem -> json -> validation A)
  (loc : list LocItem) (v : json) (r : list A) :
  validate_list item loc v = inr r ->
  exists l, v = JArray l
            /\ Forall2 (fun x a => exists loc', item loc' x = inr a) l r.
Proof.
  destruct v; simpl; try discriminate.
  intros H. eauto using validate_items_inr_inv.
Qed.

Lemma validate_SalesAngle_inr_inv (loc : list LocItem) (v : json)
  (a : SalesAngle) :
  validate_SalesAngle loc v = inr a ->
  exists d, v = JObject d
    /\ Dict.get d "avatar_name" = Some (JString (avatar_name a))
    /\ Dict.get d "pain_point_addressed" = Some (JString (pain_point_addressed a))
    /\ Dict.get d "persuasive_copy" = Some (JString (persuasive_copy a)).
Proof.
  destruct v; simpl; try discriminate. intros H.
  apply ap_inr_inv in H as (g3 & c & H & Hc & ->).
  apply ap_inr_inv in H as (g2 & p & H & Hp & ->).
  apply ap_inr_inv in H as (g1 & n & H & Hn & ->).
  injection H as <-.
  apply validate_field_inr_inv in Hc as (vc & Hc & Ec).
  apply validate_field_inr_inv in Hp as (vp & Hp & Ep).
  apply validate_field_inr_inv in Hn as (vn & Hn & En).
  apply validate_str_inr_inv in Ec, Ep, En. subst.
  exists members. simpl. auto.
Qed.

(** A validation that succeeds found a list under each of the two
    fields, and every item of each list passed its own validator. *)
Lemma model_validate_inr_inv (v : json) (o : StrategyOutput) :
  model_validate v = inr o ->
  exists d mp l, v = JObject d
    /\ Dict.get d "main_pain_points" = Some (JArray mp)
    /\ Dict.get d "sales_angles" = Some (JArray l)
    /\ Forall2 (fun x s => exists loc, validate_str loc x = inr s)
         mp (main_pain_points o)
    /\ Forall2 (fun x a => exists loc, validate_SalesAngle loc x = inr a)
         l (sales_angles o).
Proof.
  unfold model_validate. destruct v; simpl; try discriminate. intros H.
  apply ap_inr_inv in H as (g2 & sa & H & Hsa & ->).
  apply ap_inr_inv in H as (g1 & mp & H & Hmp & ->).
  injection H as <-.
  apply validate_field_inr_inv in Hsa as (vs & Hgs & Hvs).
  apply validate_field_inr_inv in Hmp as (vm & Hgm & Hvm).
  apply validate_list_inr_inv in Hvs as (l & -> & Hl).
  apply validate_list_inr_inv in Hvm as (m & -> & Hm).
  exists members, m, l. simpl. auto.
Qed.

(** C1, as the code has it.  Validation succeeds only if [sales_angles] is
    a list whose every entry is an object that holds a string under each of
    [avatar_name], [pain_point_addressed] and [persuasive_copy]; the angle
    that comes out holds exactly those strings.  So an absent field or one
    that is not a string makes validation fail; a string may be empty. *)
Theorem angle_fields_present_strings (v : json) (o : StrategyOutput) :
  model_validate v = inr o ->
  exists d l, v = JObject d
    /\ Dict.get d "sales_angles" = Some (JArray l)
    /\ Forall2 angle_entry l (sales_angles o).
Proof.
  intros H.
  destruct (model_validate_inr_inv v o H) as (d & mp & l & -> & _ & Hl & _ & Hall).
  exists d, l. repeat split; [exact Hl|].
  eapply Forall2_impl; [|exact Hall].
  intros e a [loc He]. unfold angle_entry.
  now apply validate_SalesAngle_inr_inv in He.
Qed.

(** The object whose only angle has three empty strings. *)
Lemma angle_fields_present_strings_witness :
  model_validate empty_strings_object
  = inr {| main_pain_points := [];
           sales_angles := [{| avatar_name := ""; pain_point_addressed := "";
                               persuasive_copy := "" |}] |}
  /\ exists d l, empty_strings_object = JObject d
       /\ Dict.get d "sales_angles" = Some (JArray l)
       /\ Forall2 angle_entry l
            [{| avatar_name := ""; pain_point_addressed := "";
                persuasive_copy := "" |}].
Proof.
  split.
  - vm_compute. reflexivity.
  - apply (angle_fields_present_strings empty_strings_object
             {| main_pain_points := [];
                sales_angles := [{| avatar_name := ""; pain_point_addressed := "";
                                    persuasive_copy := "" |}] |}).
    vm_compute. reflexivity.
Defined.

(** C1 as stated fails: an angle whose three fields are empty strings is
    accepted, and comes out with its empty strings. *)
Lemma empty_string_fields_accepted :
  model_validate empty_strings_object
  = inr {| main_pain_points := [];
           sales_angles := [{| avatar_name := ""; pain_point_addressed := "";
                               persuasive_copy := "" |}] |}.
Proof. reflexivity. Qed.

(** An absent field and a field that is not a string are failures. *)
Example absent_field_rejected :
  validate_SalesAngle []
    (JObject [("avatar_name", JString "a"); ("persuasive_copy", JString "c")])
  = inl [{| err_type := missing; err_loc := [Key "pain_point_addressed"];
            err_input := JObject [("avatar_name", JString "a");
                                  ("persuasive_copy", JString "c")] |}].
Proof. reflexivity. Qed.

Example wrong_type_rejected :
  validate_SalesAngle []
    (JObject [("avatar_name", JInt 7); ("pain_point_addressed", JString "p");
              ("persuasive_copy", JNull)])
  = inl [{| err_type := string_type; err_loc := [Key "avatar_name"];
            err_input := JInt 7 |};
         {| err_type := string_type; err_loc := [Key "persuasive_copy"];
            err_input := JNull |}].
Proof. reflexivity. Qed.

(** The handler on a success, read backwards. *)
Lemma generar_estrategia_success (py : interpreter)
  (client : string -> completion)
  (json_schema product_name competitor_reviews : string) (st : session_state) :
  fst (generar_estrategia py client json_schema product_name competitor_reviews st)
    = Success ->
  exists content response_json strategy_output,
    client (prompt product_name competitor_reviews json_schema)
      = Returned (Some content)
    /\ json_loads_within py content = Loaded response_json
    /\ model_validate response_json = inr strategy_output
    /\ snd (generar_estrategia py client json_schema product_name
              competitor_reviews st)
       = {| strategy := Some strategy_output;
            angles := Some (angles_of strategy_output) |}.
Proof.
  unfold generar_estrategia.
  destruct (is_empty product_name || is_empty competitor_reviews)%bool;
    [discriminate|].
  rewrite try_block_cases.
  destruct (client _) as [msg|[content|]] eqn:Ec; try discriminate.
  destruct (json_loads_within py content) as [response_json| |msg] eqn:Ej;
    try discriminate.
  destruct (model_validate response_json) as [e|o] eqn:Ev; try discriminate.
  intros _. exists content, response_json, o. repeat split; auto.
Qed.

(** C2, as the code has it.  When the handler reports success, the stored
    result is the validated form of the response, the stored lookup is
    derived from it, and its [sales_angles] has one angle for each entry of
    the list the response holds under [sales_angles]: as many as that list
    has, none when it is empty. *)
Theorem success_stores_validated_output (py : interpreter)
  (client : string -> completion)
  (json_schema product_name competitor_reviews : string) (st : session_state) :
  fst (generar_estrategia py client json_schema product_name competitor_reviews st)
    = Success ->
  exists content d l strategy_output,
    client (prompt product_name competitor_reviews json_schema)
      = Returned (Some content)
    /\ exceeds_limit py content = None
    /\ json_loads content = Some (JObject d)
    /\ Dict.get d "sales_angles" = Some (JArray l)
    /\ model_validate (JObject d) = inr strategy_output
    /\ snd (generar_estrategia py client json_schema product_name
              competitor_reviews st)
       = {| strategy := Some strategy_output;
            angles := Some (angles_of strategy_output) |}
    /\ List.length (sales_angles strategy_output) = List.length l.
Proof.
  intros H.
  apply generar_estrategia_success in H as (content & v & o & Hc & Hj & Hv & Hs).
  destruct (model_validate_inr_inv v o Hv) as (d & mp & l & -> & _ & Hget & _ & Hall).
  apply json_loads_within_loaded in Hj as [Hlim Hj].
  exists content, d, l, o. repeat split; auto.
  symmetry. eapply Forall2_length; eauto.
Qed.

(** Scenario A. *)
Lemma success_stores_validated_output_witness :
  generar_estrategia py3 (answers scenario_A_response) "{}" "Silent Blender"
    "too loud" empty_session = (Success, scenario_A_session)
  /\ exists content d l strategy_output,
    answers scenario_A_response (prompt "Silent Blender" "too loud" "{}")
      = Returned (Some content)
    /\ exceeds_limit py3 content = None
    /\ json_loads content = Some (JObject d)
    /\ Dict.get d "sales_angles" = Some (JArray l)
    /\ model_validate (JObject d) = inr strategy_output
    /\ snd (generar_estrategia py3 (answers scenario_A_response) "{}"
              "Silent Blender" "too loud" empty_session)
       = {| strategy := Some strategy_output;
            angles := Some (angles_of strategy_output) |}
    /\ List.length (sales_angles strategy_output) = List.length l.
Proof.
  split.
  - vm_compute. reflexivity.
  - apply (success_stores_validated_output py3 (answers scenario_A_response) "{}"
             "Silent Blender" "too loud" empty_session).
    vm_compute. reflexivity.
Defined.

(** C2 as stated fails: a response whose [sales_angles] is the empty list
    is reported as a success, and the stored result has no angle. *)
Lemma empty_sales_angles_success :
  generar_estrategia py3 (answers empty_lists_response) "{}" "Silent Blender"
    "too loud" empty_session
  = (Success,
     {| strategy := Some {| main_pain_points := []; sales_angles := [] |};
        angles := Some [] |}).
Proof. vm_compute. reflexivity. Qed.

(** ** Missing fields *)

Lemma validate_items_fails {A : Type}
  (item : list LocItem -> json -> validation A)
  (loc : list LocItem) (l : list json) (i start : nat) (x : json)
  (e : ErrorDetails) :
  nth_error l i = Some x ->
  fails_with (item (loc ++ [Index (start + i)])%list x) e ->
  fails_with (validate_items item loc start l) e.
Proof.
  revert i start. induction l as [|y l IH]; intros [|i] start H Hf;
    simpl in H; try discriminate.
  - injection H as ->. rewrite Nat.add_0_r in Hf. simpl.
    apply ap_fails_l, ap_fails_r, Hf.
  - simpl. apply ap_fails_r. apply (IH i (S start)); auto.
    now rewrite Nat.add_succ_comm.
Qed.

Lemma validate_field_missing {A : Type}
  (validator : list LocItem -> json -> validation A)
  (loc : list LocItem) (d : Dict.t json) (name : string) :
  Dict.get d name = None ->
  fails_with (validate_field validator loc d name)
    {| err_type := missing; err_loc := (loc ++ [Key name])%list;
       err_input := JObject d |}.
Proof.
  intros H. unfold validate_field. rewrite H. eexists. split; [reflexivity|].
  now left.
Qed.

Lemma validate_field_fails {A : Type}
  (validator : list LocItem -> json -> validation A)
  (loc : list LocItem) (d : Dict.t json) (name : string) (v : json)
  (e : ErrorDetails) :
  Dict.get d name = Some v ->
  fails_with (validator (loc ++ [Key name])%list v) e ->
  fails_with (validate_field validator loc d name) e.
Proof. intros H Hf. unfold validate_field. now rewrite H. Qed.

Lemma validate_SalesAngle_missing (loc : list LocItem) (a : Dict.t json)
  (name : string) :
  In name SalesAngle_fields ->
  Dict.get a name = None ->
  fails_with (validate_SalesAngle loc (JObject a))
    {| err_type := missing; err_loc := (loc ++ [Key name])%list;
       err_input := JObject a |}.
Proof.
  intros Hin Hget. simpl.
  destruct Hin as [<-|[<-|[<-|[]]]].
  - apply ap_fails_l, ap_fails_l, ap_fails_r. now apply validate_field_missing.
  - apply ap_fails_l, ap_fails_r. now apply validate_field_missing.
  - apply ap_fails_r. now apply validate_field_missing.
Qed.

Lemma model_validate_lacks (d : Dict.t json) (e : ErrorDetails) :
  lacks d e -> fails_with (model_validate (JObject d)) e.
Proof.
  unfold model_validate. intros [name Hin Hget | l i a name Hsa Hnth Hin Hget];
    simpl.
  - destruct Hin as [<-|[<-|[]]].
    + apply ap_fails_l, ap_fails_r.
      now apply (validate_field_missing _ []).
    + apply ap_fails_r. now apply (validate_field_missing _ []).
  - apply ap_fails_r. eapply validate_field_fails; [exact Hsa|].
    simpl. eapply (validate_items_fails _ _ _ i 0); [exact Hnth|].
    apply (validate_SalesAngle_missing ([Key "sales_angles"] ++ [Index i])%list);
      auto.
Qed.

(** C5. A response that parses to an object lacking [main_pain_points] or
    [sales_angles], or holding a [sales_angles] entry that lacks one of its
    three fields, is a [SchemaViolation], for the Response Validator and
    for the handler; the error entry that names the missing field, by its
    path, is among the details it carries.  The session state is as it
    was. *)
Theorem missing_field_is_schema_violation (py : interpreter)
  (client : string -> completion)
  (json_schema product_name competitor_reviews content : string)
  (st : session_state) (d : Dict.t json) (e : ErrorDetails) :
  is_empty product_name = false ->
  is_empty competitor_reviews = false ->
  client (prompt product_name competitor_reviews json_schema)
    = Returned (Some content) ->
  json_loads_within py content = Loaded (JObject d) ->
  lacks d e ->
  exists errors,
    In e errors
    /\ response_validator py content = Violation errors
    /\ generar_estrategia py client json_schema product_name competitor_reviews st
       = (SchemaViolation errors, st).
Proof.
  intros Hp Hr Hc Hj Hl.
  destruct (model_validate_lacks d e Hl) as (errors & Hv & Hin).
  exists errors. split; [exact Hin|]. split.
  - unfold response_validator. now rewrite Hj, Hv.
  - unfold generar_estrategia. rewrite Hp, Hr. simpl.
    rewrite try_block_cases, Hc, Hj, Hv. reflexivity.
Qed.

(** Scenario C. *)
Lemma missing_field_is_schema_violation_witness :
  exists errors,
    In {| err_type := missing; err_loc := [Key "sales_angles"];
          err_input := JObject [("main_pain_points", JArray [JString "x"])] |}
       errors
    /\ response_validator py3 scenario_C_response = Violation errors
    /\ generar_estrategia py3 (answers scenario_C_response) "{}" "Silent Blender"
         "too loud" scenario_A_session
       = (SchemaViolation errors, scenario_A_session).
Proof.
  apply (missing_field_is_schema_violation py3 (answers scenario_C_response) "{}"
           "Silent Blender" "too loud" scenario_C_response scenario_A_session
           [("main_pain_points", JArray [JString "x"])]).
  - reflexivity.
  - reflexivity.
  - reflexivity.
  - vm_compute. reflexivity.
  - apply (lacks_field _ "sales_angles").
    + simpl. auto.
    + reflexivity.
Defined.

(** An angle without its [persuasive_copy], second in the list. *)
Example missing_angle_field_path :
  model_validate
    (JObject [("main_pain_points", JArray []);
              ("sales_angles",
               JArray [SalesAngle_model_dump the_skeptic;
                       JObject [("avatar_name", JString "a");
                                ("pain_point_addressed", JString "p")]])])
  = inl [{| err_type := missing;
            err_loc := [Key "sales_angles"; Index 1; Key "persuasive_copy"];
            err_input := JObject [("avatar_name", JString "a");
                                  ("pain_point_addressed", JString "p")] |}].
Proof. reflexivity. Qed.

(** ** Unknown fields *)

Lemma validate_field_inr_agree {A : Type}
  (validator : list LocItem -> json -> validation A)
  (loc : list LocItem) (d d' : Dict.t json) (name : string) (a : A) :
  Dict.get d name = Dict.get d' name ->
  validate_field validator loc d name = inr a ->
  validate_field validator loc d' name = inr a.
Proof.
  unfold validate_field. intros <-.
  destruct (Dict.get d name); [auto | discriminate].
Qed.

Lemma validate_SalesAngle_same (loc : list LocItem) (e e' : json)
  (a : SalesAngle) :
  same_angle_fields e e' ->
  validate_SalesAngle loc e = inr a ->
  validate_SalesAngle loc e' = inr a.
Proof.
  intros [e0 | d d' Hagree]; [auto|]. simpl. intros H.
  apply ap_inr_inv in H as (g3 & c & H & Hc & ->).
  apply ap_inr_inv in H as (g2 & p & H & Hp & ->).
  apply ap_inr_inv in H as (g1 & n & H & Hn & ->).
  injection H as <-.
  unfold agree_on, SalesAngle_fields in Hagree.
  inversion Hagree as [|? ? E1 Hagree1]; subst.
  inversion Hagree1 as [|? ? E2 Hagree2]; subst.
  inversion Hagree2 as [|? ? E3 _]; subst.
  rewrite (validate_field_inr_agree _ _ _ _ _ _ E1 Hn).
  rewrite (validate_field_inr_agree _ _ _ _ _ _ E2 Hp).
  rewrite (validate_field_inr_agree _ _ _ _ _ _ E3 Hc).
  reflexivity.
Qed.

Lemma validate_items_same (loc : list LocItem) (l l' : list json) (i : nat)
  (r : list SalesAngle) :
  Forall2 same_angle_fields l l' ->
  validate_items validate_SalesAngle loc i l = inr r ->
  validate_items validate_SalesAngle loc i l' = inr r.
Proof.
  intros Hall. revert i r.
  induction Hall as [|e e' l l' He Hall IH]; intros i r; simpl; [auto|].
  intros H.
  apply ap_inr_inv in H as (g & tl & Hg & Htl & ->).
  apply ap_inr_inv in Hg as (g' & a & Hc & Ha & ->).
  injection Hc as <-.
  rewrite (validate_SalesAngle_same _ _ _ _ He Ha), (IH _ _ Htl).
  reflexivity.
Qed.

Lemma model_validate_same_known (v v' : json) (o : StrategyOutput) :
  same_known_fields v v' ->
  model_validate v = inr o ->
  model_validate v' = inr o.
Proof.
  intros [d d' l l' Hmp Hsa Hsa' Hall]. unfold model_validate. simpl.
  intros H.
  apply ap_inr_inv in H as (g2 & sa & H & Hv & ->).
  apply ap_inr_inv in H as (g1 & mp & H & Hm & ->).
  injection H as <-.
  rewrite (validate_field_inr_agree _ _ _ _ _ _ Hmp Hm).
  unfold validate_field in Hv |- *. rewrite Hsa in Hv. rewrite Hsa'.
  simpl in Hv |- *.
  rewrite (validate_items_same _ _ _ _ _ Hall Hv). reflexivity.
Qed.

Lemma validate_items_JString (loc : list LocItem) (i : nat) (l : list string) :
  validate_items validate_str loc i (map JString l) = inr l.
Proof.
  revert i. induction l as [|x l IH]; intros i; simpl; [reflexivity|].
  now rewrite IH.
Qed.

Lemma validate_items_angle_entries (l : list json) (sa : list SalesAngle) :
  Forall2 angle_entry l sa ->
  forall loc i, validate_items validate_SalesAngle loc i l = inr sa.
Proof.
  induction 1 as [|e a l sa (d & -> & H1 & H2 & H3) _ IH]; intros loc i;
    [reflexivity|].
  cbn [validate_items validate_SalesAngle]. unfold validate_field.
  rewrite H1, H2, H3, IH. now destruct a.
Qed.

(** C10. An object that holds every required field with a value of the
    right type (under [main_pain_points] a list of strings, under
    [sales_angles] a list of objects that hold three strings under the
    three field names) validates, and so does every object that differs
    from it only in keys that are not fields, at the top or inside the
    entries of [sales_angles]: each gives the [StrategyOutput] made of the
    values of the fields, which has no place for the other keys. *)
Theorem extra_fields_ignored (d : Dict.t json) (l : list json)
  (o : StrategyOutput) (v' : json) :
  Dict.get d "main_pain_points"
    = Some (JArray (map JString (main_pain_points o))) ->
  Dict.get d "sales_angles" = Some (JArray l) ->
  Forall2 angle_entry l (sales_angles o) ->
  same_known_fields (JObject d) v' ->
  model_validate (JObject d) = inr o /\ model_validate v' = inr o.
Proof.
  intros Hmp Hsa Hall Hsame.
  assert (model_validate (JObject d) = inr o) as Hv.
  { destruct o as [mp sa]. simpl in *.
    unfold model_validate. cbn [validate_StrategyOutput].
    unfold validate_field. rewrite Hmp, Hsa. cbn [validate_list].
    now rewrite validate_items_JString, (validate_items_angle_entries l sa Hall). }
  split; [exact Hv|].
  exact (model_validate_same_known _ _ _ Hsame Hv).
Qed.

(** Scenario A with a key too many at the top and one inside the angle. *)
Lemma extra_fields_ignored_witness :
  model_validate (model_dump scenario_A_output) = inr scenario_A_output
  /\ model_validate
       (JObject [("note", JInt 1);
                 ("main_pain_points",
                  JArray [JString "noise"; JString "leaks"; JString "price"]);
                 ("sales_angles",
                  JArray [JObject [("avatar_name", JString "The Skeptic");
                                   ("score", JFloat "0.5");
                                   ("pain_point_addressed", JString "noise");
                                   ("persuasive_copy", JString "...")]])])
     = inr scenario_A_output.
Proof.
  apply (extra_fields_ignored
           [("main_pain_points",
             JArray [JString "noise"; JString "leaks"; JString "price"]);
            ("sales_angles", JArray [SalesAngle_model_dump the_skeptic])]
           [SalesAngle_model_dump the_skeptic] scenario_A_output).
  - reflexivity.
  - reflexivity.
  - constructor; [|constructor].
    eexists. split; [reflexivity|]. repeat split; reflexivity.
  - eapply same_known_intro; try reflexivity.
    constructor; [|constructor].
    apply same_angle_object. repeat constructor.
Defined.

(* ================================================================= *)
(** * [json.loads] always answers *)

Lemma skip_ws_length (s : string) :
  String.length (skip_ws s) <= String.length s.
Proof.
  induction s as [|c s IH]; simpl; [lia|].
  destruct (is_ws c); simpl; lia.
Qed.

(** Induction on the length of a text. *)
Lemma string_length_ind (P : string -> Prop) :
  (forall s, (forall t, String.length t < String.length s -> P t) -> P s) ->
  forall s, P s.
Proof.
  intros H s.
  assert (forall n t, String.length t < n -> P t) as Hn.
  { induction n as [|n IH]; intros t Ht; [lia|].
    apply H. intros u Hu. apply IH. lia. }
  apply (Hn (S (String.length s))). lia.
Qed.

Lemma scan_units_length (s : string) (us : list str_unit) (rest : string) :
  scan_units s = Some (us, rest) -> String.length rest < String.length s.
Proof.
  revert us rest. induction s as [s IH] using string_length_ind.
  intros us rest. destruct s as [|c s1]; simpl; [discriminate|].
  destruct (Ascii.eqb c dquote).
  { intros [= <- <-]. lia. }
  destruct (Ascii.eqb c backslash).
  - destruct s1 as [|e s2]; [discriminate|].
    destruct (Ascii.eqb e "u").
    + destruct s2 as [|h1 [|h2 [|h3 [|h4 s3]]]]; try discriminate.
      destruct (hex4 h1 h2 h3 h4); [|discriminate].
      destruct (scan_units s3) as [[us' rest']|] eqn:E; [|discriminate].
      intros [= <- <-]. apply IH in E; simpl in *; lia.
    + destruct (unescape e); [|discriminate].
      destruct (scan_units s2) as [[us' rest']|] eqn:E; [|discriminate].
      intros [= <- <-]. apply IH in E; simpl in *; lia.
  - destruct (N_of_ascii c <? 32)%N; [discriminate|].
    destruct (scan_units s1) as [[us' rest']|] eqn:E; [|discriminate].
    intros [= <- <-]. apply IH in E; simpl in *; lia.
Qed.

Lemma scanstring_length (s str rest : string) :
  scanstring s = Some (str, rest) -> String.length rest < String.length s.
Proof.
  unfold scanstring. destruct (scan_units s) as [[us r]|] eqn:E; [|discriminate].
  intros [= <- <-]. eapply scan_units_length; eauto.
Qed.

Lemma span_digits_length (s : string) :
  String.length (snd (span_digits s)) <= String.length s.
Proof.
  induction s as [|c s IH]; simpl; [lia|].
  destruct (is_digit c); simpl; [|lia].
  destruct (span_digits s); simpl in *; lia.
Qed.

Lemma strip_prefix_length (p s r : string) :
  strip_prefix p s = Some r ->
  String.length s = String.length p + String.length r.
Proof.
  revert s. induction p as [|a p IH]; simpl; intros s.
  - now intros [= ->].
  - destruct s as [|b s]; [discriminate|].
    destruct (Ascii.eqb a b); [|discriminate].
    intros H. apply IH in H. simpl. lia.
Qed.

Lemma match_integer_length (s : string) (neg : bool) (ds r : string) :
  match_integer s = Some (neg, ds, r) -> String.length r < String.length s.
Proof.
  unfold match_integer.
  destruct s as [|c s']; [discriminate|].
  destruct (Ascii.eqb c "-").
  - intros H. destruct s' as [|c1 s1]; [discriminate|].
    revert H. destruct (Ascii.eqb c1 "0").
    + intros [= <- <- <-]. simpl. lia.
    + destruct (is_digit c1); [|discriminate].
      pose proof (span_digits_length s1) as Hl.
      destruct (span_digits s1) as [ds1 rest1]. simpl in Hl.
      intros [= <- <- <-]. simpl. lia.
  - destruct (Ascii.eqb c "0").
    + intros [= <- <- <-]. simpl. lia.
    + destruct (is_digit c); [|discriminate].
      pose proof (span_digits_length s') as Hl.
      destruct (span_digits s') as [ds1 rest1]. simpl in Hl.
      intros [= <- <- <-]. simpl. lia.
Qed.

Lemma match_frac_length (s : string) :
  String.length (snd (match_frac s)) <= String.length s.
Proof.
  destruct s as [|c s1]; simpl; [lia|].
  destruct (Ascii.eqb c "."); simpl; [|lia].
  pose proof (span_digits_length s1) as Hl.
  destruct (span_digits s1) as [[|d ds] rest]; simpl in *; lia.
Qed.

Lemma match_exp_length (s : string) :
  String.length (snd (match_exp s)) <= String.length s.
Proof.
  destruct s as [|c s1]; simpl; [lia|].
  destruct (Ascii.eqb c "e" || Ascii.eqb c "E")%bool; simpl; [|lia].
  destruct s1 as [|g s2]; simpl; [lia|].
  destruct (Ascii.eqb g "-" || Ascii.eqb g "+")%bool.
  - pose proof (span_digits_length s2) as Hl.
    destruct (span_digits s2) as [[|d ds] rest]; simpl in *; lia.
  - destruct (is_digit g); [|simpl; lia].
    pose proof (span_digits_length s2) as Hl.
    destruct (span_digits s2) as [ds rest]; simpl in *; lia.
Qed.

Lemma scan_number_length (s : string) (v : json) (r : string) :
  scan_number s = Some (v, r) -> String.length r < String.length s.
Proof.
  unfold scan_number.
  destruct (match_integer s) as [[[neg ds] r0]|] eqn:E; [|discriminate].
  apply match_integer_length in E.
  pose proof (match_frac_length r0) as Hf.
  destruct (match_frac r0) as [frac r1]. simpl in Hf.
  pose proof (match_exp_length r1) as He.
  destruct (match_exp r1) as [exp r2]. simpl in He.
  destruct frac, exp; intros [= <- <-]; lia.
Qed.

Lemma scan_literal_length (s : string) (v : json) (r : string) :
  scan_literal s = Done v r -> String.length r < String.length s.
Proof.
  unfold scan_literal.
  repeat match goal with
  | |- context [strip_prefix ?p s] =>
      let E := fresh "E" in
      destruct (strip_prefix p s) eqn:E;
      [ apply strip_prefix_length in E; simpl in E; intros [= <- <-]; lia | clear E ]
  | |- context [scan_number s] =>
      let E := fresh "E" in
      destruct (scan_number s) as [[? ?]|] eqn:E;
      [ apply scan_number_length in E; intros [= <- <-]; lia | clear E ]
  end.
  discriminate.
Qed.

Lemma scan_literal_answers (s : string) : scan_literal s <> OutOfFuel.
Proof.
  unfold scan_literal.
  repeat match goal with
  | |- context [strip_prefix ?p s] => destruct (strip_prefix p s); [discriminate|]
  | |- context [scan_number s] => destruct (scan_number s) as [[? ?]|]; [discriminate|]
  end.
  discriminate.
Qed.

Lemma skip_ws_cons_length (s : string) (c : ascii) (r : string) :
  skip_ws s = String c r -> String.length r < String.length s.
Proof.
  intros H. pose proof (skip_ws_length s) as Hl. rewrite H in Hl. simpl in Hl. lia.
Qed.

Lemma scan_map_answers {A B : Type} (f : A -> B) (r : scan A) :
  r <> OutOfFuel -> scan_map f r <> OutOfFuel.
Proof. destruct r; simpl; congruence. Qed.

Lemma scan_map_done {A B : Type} (f : A -> B) (r : scan A) (b : B)
  (rest : string) :
  scan_map f r = Done b rest -> exists a, r = Done a rest /\ b = f a.
Proof. destruct r; simpl; try discriminate. intros [= <- <-]. eauto. Qed.

(** With fuel above twice the length of the text, no scan runs out of
    fuel, and a scan that succeeds consumes at least one character. *)
Lemma scan_enough_fuel (fuel : nat) :
  (forall s, 2 * String.length s < fuel ->
     scan_once fuel s <> OutOfFuel
     /\ forall v r, scan_once fuel s = Done v r ->
                    String.length r < String.length s)
  /\ (forall s, 2 * String.length s + 1 < fuel ->
     parse_items fuel s <> OutOfFuel
     /\ forall vs r, parse_items fuel s = Done vs r ->
                     String.length r < String.length s)
  /\ (forall s, 2 * String.length s + 1 < fuel ->
     parse_members fuel s <> OutOfFuel
     /\ forall ms r, parse_members fuel s = Done ms r ->
                     String.length r < String.length s).
Proof.
  induction fuel as [|fuel (IHs & IHi & IHm)].
  { repeat split; intros; lia. }
  split; [|split].
  - (* scan_once *)
    intros s Hs. simpl. destruct s as [|c s']; [split; [discriminate|discriminate]|].
    simpl in Hs.
    destruct (Ascii.eqb c dquote).
    { destruct (scanstring s') as [[str rest]|] eqn:E;
        [|split; discriminate].
      apply scanstring_length in E.
      split; [discriminate|]. intros v r [= <- <-]. simpl. lia. }
    destruct (Ascii.eqb c "{").
    { destruct (skip_ws s') as [|c1 s1] eqn:E; [split; discriminate|].
      apply skip_ws_cons_length in E.
      destruct (Ascii.eqb c1 "}").
      { split; [discriminate|]. intros v r [= <- <-]. simpl. lia. }
      destruct (Ascii.eqb c1 dquote); [|split; discriminate].
      destruct (IHm s1) as [Hne Hlen]; [lia|].
      split; [now apply scan_map_answers|].
      intros v r H. apply scan_map_done in H as (ms & H & _).
      apply Hlen in H. simpl. lia. }
    destruct (Ascii.eqb c "[").
    { destruct (skip_ws s') as [|c1 s1] eqn:E; [split; discriminate|].
      pose proof (skip_ws_cons_length _ _ _ E) as El.
      destruct (Ascii.eqb c1 "]").
      { split; [discriminate|]. intros v r [= <- <-]. simpl. lia. }
      destruct (IHi (String c1 s1)) as [Hne Hlen]; [simpl; lia|].
      split; [now apply scan_map_answers|].
      intros v r H. apply scan_map_done in H as (ms & H & _).
      apply Hlen in H. simpl in *. lia. }
    split; [apply scan_literal_answers|].
    intros v r H. apply scan_literal_length in H. exact H.
  - (* parse_items *)
    intros s Hs. simpl.
    destruct (IHs s) as [Hne Hlen]; [lia|].
    destruct (scan_once fuel s) as [v r| |] eqn:E;
      [|split; discriminate|contradiction].
    specialize (Hlen v r eq_refl).
    destruct (skip_ws r) as [|c r1] eqn:Er; [split; discriminate|].
    apply skip_ws_cons_length in Er.
    destruct (Ascii.eqb c "]").
    { split; [discriminate|]. intros vs r' [= <- <-]. lia. }
    destruct (Ascii.eqb c ","); [|split; discriminate].
    pose proof (skip_ws_length r1) as Hw.
    destruct (IHi (skip_ws r1)) as [Hne' Hlen']; [lia|].
    split; [now apply scan_map_answers|].
    intros vs r' H. apply scan_map_done in H as (vs' & H & _).
    apply Hlen' in H. lia.
  - (* parse_members *)
    intros s Hs. simpl.
    destruct (scanstring s) as [[key r0]|] eqn:Ek; [|split; discriminate].
    apply scanstring_length in Ek.
    destruct (skip_ws r0) as [|c r1] eqn:Er0; [split; discriminate|].
    apply skip_ws_cons_length in Er0.
    destruct (Ascii.eqb c ":"); [|split; discriminate].
    pose proof (skip_ws_length r1) as Hw1.
    destruct (IHs (skip_ws r1)) as [Hne Hlen]; [lia|].
    destruct (scan_once fuel (skip_ws r1)) as [v r2| |] eqn:E;
      [|split; discriminate|contradiction].
    specialize (Hlen v r2 eq_refl).
    destruct (skip_ws r2) as [|c2 r3] eqn:Er2; [split; discriminate|].
    apply skip_ws_cons_length in Er2.
    destruct (Ascii.eqb c2 "}").
    { split; [discriminate|]. intros ms r' [= <- <-]. lia. }
    destruct (Ascii.eqb c2 ","); [|split; discriminate].
    destruct (skip_ws r3) as [|c3 r4] eqn:Er3; [split; discriminate|].
    apply skip_ws_cons_length in Er3.
    destruct (Ascii.eqb c3 dquote); [|split; discriminate].
    destruct (IHm r4) as [Hne' Hlen']; [lia|].
    split; [now apply scan_map_answers|].
    intros ms r' H. apply scan_map_done in H as (ms' & H & _).
    apply Hlen' in H. lia.
Qed.

(** The fuel [json_loads] gives is enough: its [None] is always a
    decoding error, never the bound of the model. *)
Theorem json_loads_enough_fuel (s : string) :
  scan_once (S (2 * String.length s)) (skip_ws s) <> OutOfFuel.
Proof.
  apply (scan_enough_fuel (S (2 * String.length s))).
  pose proof (skip_ws_length s). lia.
Qed.

(** ** The probe and the scan *)

Lemma shadows_scan_map {A B : Type} (f : A -> B) (p : probe) (r : scan A) :
  shadows p r -> shadows p (scan_map f r).
Proof.
  destruct p; simpl; [intros [a ->]; simpl; eauto | intros ->; reflexivity
                     | intros ->; reflexivity | auto].
Qed.

Lemma probe_literal_shadows (max_digits : nat) (s : string) :
  shadows (probe_literal max_digits s) (scan_literal s).
Proof.
  unfold probe_literal.
  destruct (scan_literal s) as [v rest| |]; [|reflexivity|reflexivity].
  destruct v; simpl; eauto.
  destruct (match_integer s) as [[[neg ds] r0]|]; [|simpl; eauto].
  destruct (too_many_digits _ _); simpl; eauto.
Qed.

Lemma probe_shadows (max_digits fuel : nat) :
  (forall depth s,
     shadows (probe_once max_digits depth fuel s) (scan_once fuel s))
  /\ (forall depth s,
     shadows (probe_items max_digits depth fuel s) (parse_items fuel s))
  /\ (forall depth s,
     shadows (probe_members max_digits depth fuel s) (parse_members fuel s)).
Proof.
  induction fuel as [|fuel (IHo & IHi & IHm)];
    [repeat split; intros; reflexivity|].
  repeat split; intros depth s.
  - cbn [probe_once scan_once].
    destruct s as [|c s']; [reflexivity|].
    destruct (Ascii.eqb c dquote).
    { destruct (scanstring s') as [[str rest]|]; simpl; eauto. }
    destruct (Ascii.eqb c "{").
    { destruct depth as [|depth]; [exact I|].
      destruct (skip_ws s') as [|c1 s1]; [reflexivity|].
      destruct (Ascii.eqb c1 "}"); [simpl; eauto|].
      destruct (Ascii.eqb c1 dquote); [|reflexivity].
      apply shadows_scan_map, IHm. }
    destruct (Ascii.eqb c "[").
    { destruct depth as [|depth]; [exact I|].
      destruct (skip_ws s') as [|c1 s1]; [reflexivity|].
      destruct (Ascii.eqb c1 "]"); [simpl; eauto|].
      apply shadows_scan_map, IHi. }
    apply probe_literal_shadows.
  - cbn [probe_items parse_items].
    specialize (IHo depth s).
    destruct (probe_once max_digits depth fuel s) as [r| | |e]; simpl in IHo.
    + destruct IHo as [v ->].
      destruct (skip_ws r) as [|c r1]; [reflexivity|].
      destruct (Ascii.eqb c "]"); [simpl; eauto|].
      destruct (Ascii.eqb c ","); [|reflexivity].
      apply shadows_scan_map, IHi.
    + now rewrite IHo.
    + now rewrite IHo.
    + exact I.
  - cbn [probe_members parse_members].
    destruct (scanstring s) as [[key r0]|]; [|reflexivity].
    destruct (skip_ws r0) as [|c r1]; [reflexivity|].
    destruct (Ascii.eqb c ":"); [|reflexivity].
    specialize (IHo depth (skip_ws r1)).
    destruct (probe_once max_digits depth fuel (skip_ws r1)) as [r2| | |e];
      simpl in IHo.
    + destruct IHo as [v ->].
      destruct (skip_ws r2) as [|c2 r3]; [reflexivity|].
      destruct (Ascii.eqb c2 "}"); [simpl; eauto|].
      destruct (Ascii.eqb c2 ","); [|reflexivity].
      destruct (skip_ws r3) as [|c3 r4]; [reflexivity|].
      destruct (Ascii.eqb c3 dquote); [|reflexivity].
      apply shadows_scan_map, IHm.
    + now rewrite IHo.
    + now rewrite IHo.
    + exact I.
Qed.

(** The bound of the model is never what stops the probe of [cpython]. *)
Lemma probe_enough_fuel (max_digits depth : nat) (s : string) :
  probe_once max_digits depth (S (2 * String.length s)) (skip_ws s)
  <> Exhausted.
Proof.
  intros H.
  pose proof (proj1 (probe_shadows max_digits (S (2 * String.length s)))
                depth (skip_ws s)) as Hs.
  rewrite H in Hs. exact (json_loads_enough_fuel s Hs).
Qed.

(** On the interpreter [cpython], a text that is read within the limits
    is read as [json_loads] reads it. *)
Lemma cpython_within (recursion_headroom max_str_digits : nat) (s : string) :
  exceeds_limit (cpython recursion_headroom max_str_digits) s = None ->
  match probe_once max_str_digits recursion_headroom
          (S (2 * String.length s)) (skip_ws s) with
  | Passed rest =>
      exists v, scan_once (S (2 * String.length s)) (skip_ws s) = Done v rest
  | Failed => json_loads s = None
  | _ => False
  end.
Proof.
  unfold cpython, exceeds_limit. intros H.
  pose proof (probe_enough_fuel max_str_digits recursion_headroom s) as He.
  pose proof (proj1 (probe_shadows max_str_digits (S (2 * String.length s)))
                recursion_headroom (skip_ws s)) as Hs.
  destruct (probe_once _ _ _ _) as [rest| | |e]; unfold shadows in Hs.
  - exact Hs.
  - unfold json_loads. now rewrite Hs.
  - now contradiction He.
  - discriminate.
Qed.

(* ================================================================= *)
(** * Reading back what [json.dumps] writes *)

(** ** Strings *)

Lemma scan_units_escape_char (c : ascii) (tail : string) :
  scan_units (escape_char c ++ tail) =
  match scan_units tail with
  | Some (us, rest) => Some (unit_of c :: us, rest)
  | None => None
  end.
Proof.
  destruct c as [[] [] [] [] [] [] [] []]; reflexivity.
Qed.

Lemma scan_units_escape (s rest : string) :
  scan_units (escape s ++ String dquote rest)
  = Some (map unit_of (list_ascii_of_string s), rest).
Proof.
  induction s as [|c s IH]; simpl.
  - reflexivity.
  - now rewrite append_assoc, scan_units_escape_char, IH.
Qed.

Lemma unit_of_cases (c : ascii) :
  unit_of c = Raw c
  \/ (unit_of c = Esc16 (N_of_ascii c) /\ (N_of_ascii c < 32)%N).
Proof.
  unfold unit_of.
  destruct (_ || _)%bool; [now left|].
  destruct (N.ltb_spec (N_of_ascii c) 32); [now right | now left].
Qed.

Lemma utf8_control (c : ascii) :
  (N_of_ascii c < 32)%N -> utf8 (N_of_ascii c) = String c "".
Proof.
  intros H. unfold utf8.
  destruct (N.ltb_spec (N_of_ascii c) 128); [|lia].
  now rewrite ascii_N_embedding.
Qed.

Lemma decode_units_of (s : string) :
  decode_units (map unit_of (list_ascii_of_string s)) = s.
Proof.
  induction s as [|c s IH]; simpl; [reflexivity|].
  destruct (unit_of_cases c) as [-> | [-> Hc]].
  - now rewrite IH.
  - assert (is_high_surrogate (N_of_ascii c) = false) as Hh.
    { unfold is_high_surrogate.
      destruct (N.leb_spec 55296 (N_of_ascii c)); [lia | reflexivity]. }
    rewrite Hh. simpl.
    rewrite utf8_control by exact Hc.
    destruct (map unit_of (list_ascii_of_string s)) as [|[c'|lo] r];
      simpl in *; now rewrite IH.
Qed.

(** A string literal written by [encode_basestring] reads back as the
    string, whatever follows its closing quote. *)
Lemma scanstring_escape (s rest : string) :
  scanstring (escape s ++ String dquote rest) = Some (s, rest).
Proof.
  unfold scanstring. now rewrite scan_units_escape, decode_units_of.
Qed.

(** ** Whitespace *)

Lemma skip_ws_all_ws (w s : string) :
  all_ws w = true -> skip_ws (w ++ s) = skip_ws s.
Proof.
  induction w as [|c w IH]; simpl; [reflexivity|].
  intros H. apply andb_prop in H as [Hc Hw]. rewrite Hc. auto.
Qed.

Lemma skip_ws_starts_value (s : string) :
  starts_value s = true -> skip_ws s = s.
Proof.
  destruct s as [|c s]; simpl; [reflexivity|].
  destruct (is_ws c); [discriminate | reflexivity].
Qed.

Lemma all_ws_spaces (n : nat) : all_ws (spaces n) = true.
Proof. induction n; simpl; auto. Qed.

Lemma all_ws_app (w w' : string) :
  all_ws w = true -> all_ws w' = true -> all_ws (w ++ w') = true.
Proof.
  induction w as [|c w IH]; simpl; [auto|].
  intros H H'. apply andb_prop in H as [-> Hw]. auto.
Qed.

Lemma all_ws_newline_indent (enc : JSONEncoder) (level : nat) :
  all_ws (newline_indent enc level) = true.
Proof.
  unfold newline_indent.
  destruct (enc_indent enc); simpl; [apply all_ws_spaces | reflexivity].
Qed.

Lemma is_ws_number_end (c : ascii) (s : string) :
  is_ws c = true -> number_end (String c s) = true.
Proof.
  unfold is_ws. intros H.
  repeat (apply orb_prop in H as [H|H]);
    apply Ascii.eqb_eq in H; subst; reflexivity.
Qed.

Lemma number_end_all_ws (w : string) (c : ascii) (rest : string) :
  all_ws w = true ->
  number_end (String c rest) = true ->
  number_end (w ++ String c rest) = true.
Proof.
  destruct w as [|c' w]; [auto|].
  intros H _. simpl in H. apply andb_prop in H as [H _].
  now apply is_ws_number_end.
Qed.

(** The separator between two items: a comma, then whitespace; the one
    after a key: a colon, then whitespace. *)
Lemma separators_ok_inv (enc : JSONEncoder) :
  separators_ok enc = true ->
  exists w wk, item_separator enc = String "," w /\ all_ws w = true
    /\ key_separator enc = String ":" wk /\ all_ws wk = true.
Proof.
  unfold separators_ok.
  destruct (item_separator enc) as [|c1 w1]; [discriminate|].
  destruct (key_separator enc) as [|c2 w2]; [discriminate|].
  intros H.
  apply andb_prop in H as [H H4]. apply andb_prop in H as [H H3].
  apply andb_prop in H as [H1 H2].
  apply Ascii.eqb_eq in H1, H3. subst. exists w1, w2. auto.
Qed.

Lemma item_separator_form (enc : JSONEncoder) (level : nat) :
  separators_ok enc = true ->
  exists w, all_ws w = true
    /\ item_separator enc ++ newline_indent enc level = String "," w.
Proof.
  intros H. destruct (separators_ok_inv enc H) as (w & _ & -> & Hw & _).
  exists (w ++ newline_indent enc level). split; [|reflexivity].
  apply all_ws_app; auto using all_ws_newline_indent.
Qed.

Lemma separators_ok_encoder (indent : option nat) :
  separators_ok (encoder indent) = true.
Proof. destruct indent; reflexivity. Qed.

(** ** One step of each loop *)

Lemma scan_once_open_array (fuel : nat) (w body : string) :
  all_ws w = true ->
  starts_value body = true ->
  scan_once (S fuel) (String "[" (w ++ body))
  = scan_map JArray (parse_items fuel body).
Proof.
  intros Hw Hb. simpl.
  rewrite skip_ws_all_ws, skip_ws_starts_value by assumption.
  destruct body as [|c1 s1]; [discriminate|].
  simpl in Hb. apply negb_true_iff, orb_false_elim in Hb as [_ ->].
  reflexivity.
Qed.

Lemma scan_once_open_object (fuel : nat) (w body : string) :
  all_ws w = true ->
  scan_once (S fuel) (String "{" (w ++ String dquote body))
  = scan_map (fun ms => JObject (Dict.of_pairs ms)) (parse_members fuel body).
Proof.
  intros Hw. simpl. rewrite skip_ws_all_ws by assumption. reflexivity.
Qed.

Lemma agrees_scan_map {A B : Type} (f : A -> B) (r : scan A) (a : A)
  (rest : string) :
  agrees r a rest -> agrees (scan_map f r) (f a) rest.
Proof. intros [-> | ->]; [now left | now right]. Qed.

Lemma parse_items_last (fuel : nat) (s : string) (v : json) (w rest : string) :
  all_ws w = true ->
  agrees (scan_once fuel s) v (w ++ String "]" rest) ->
  agrees (parse_items (S fuel) s) [v] rest.
Proof.
  intros Hw [H | H]; simpl; rewrite H; [|now right].
  rewrite skip_ws_all_ws by assumption. now left.
Qed.

Lemma parse_items_more (fuel : nat) (s : string) (v : json) (vs : list json)
  (w body rest : string) :
  all_ws w = true ->
  starts_value body = true ->
  agrees (scan_once fuel s) v (String "," (w ++ body)) ->
  agrees (parse_items fuel body) vs rest ->
  agrees (parse_items (S fuel) s) (v :: vs) rest.
Proof.
  intros Hw Hb [H | H] Hrec; simpl; rewrite H; [|now right].
  simpl. rewrite skip_ws_all_ws, skip_ws_starts_value by assumption.
  now apply agrees_scan_map.
Qed.

Lemma parse_members_last (fuel : nat) (key wk body : string) (v : json)
  (w rest : string) :
  all_ws wk = true ->
  all_ws w = true ->
  starts_value body = true ->
  agrees (scan_once fuel body) v (w ++ String "}" rest) ->
  agrees (parse_members (S fuel)
            (escape key ++ String dquote (String ":" (wk ++ body))))
    [(key, v)] rest.
Proof.
  intros Hwk Hw Hb H. simpl. rewrite scanstring_escape. simpl.
  rewrite skip_ws_all_ws, skip_ws_starts_value by assumption.
  destruct H as [H | H]; rewrite H; [|now right].
  rewrite skip_ws_all_ws by assumption. now left.
Qed.

Lemma parse_members_more (fuel : nat) (key wk body : string) (v : json)
  (ms : list (string * json)) (w more rest : string) :
  all_ws wk = true ->
  all_ws w = true ->
  starts_value body = true ->
  agrees (scan_once fuel body) v (String "," (w ++ String dquote more)) ->
  agrees (parse_members fuel more) ms rest ->
  agrees (parse_members (S fuel)
            (escape key ++ String dquote (String ":" (wk ++ body))))
    ((key, v) :: ms) rest.
Proof.
  intros Hwk Hw Hb H Hrec. simpl. rewrite scanstring_escape. simpl.
  rewrite skip_ws_all_ws, skip_ws_starts_value by assumption.
  destruct H as [H | H]; rewrite H; [|now right].
  simpl. rewrite skip_ws_all_ws by assumption. simpl.
  now apply agrees_scan_map.
Qed.

(** ** The loops on joined texts *)

Lemma join_cons_app (sep x : string) (l : list string) (t : string) :
  exists t', join sep (x :: l) ++ t = x ++ t'.
Proof.
  destruct l as [|y l]; simpl.
  - now exists t.
  - exists (sep ++ join sep (y :: l) ++ t). now rewrite !append_assoc.
Qed.

Lemma join_cons_cons_app (w x y : string) (l : list string) (t : string) :
  join (String "," w) (x :: y :: l) ++ t
  = x ++ String "," (w ++ join (String "," w) (y :: l) ++ t).
Proof.
  change (join (String "," w) (x :: y :: l))
    with (x ++ String "," w ++ join (String "," w) (y :: l)).
  rewrite !append_assoc. simpl. now rewrite ?append_assoc.
Qed.

Lemma parse_items_join (D : json -> string) (w wc rest : string) :
  all_ws w = true ->
  all_ws wc = true ->
  forall (xs : list json) (x : json),
    Forall (fun x => reads_back (D x) x) (x :: xs) ->
    forall fuel,
      agrees (parse_items fuel
                (join (String "," w) (map D (x :: xs)) ++ wc ++ String "]" rest))
        (x :: xs) rest.
Proof.
  intros Hw Hwc. induction xs as [|y ys IH]; intros x HF fuel.
  - destruct fuel as [|fuel]; [now right|].
    inversion HF as [|? ? [_ Hx] _]; subst.
    apply (parse_items_last fuel _ x wc rest Hwc). simpl.
    apply Hx. now apply number_end_all_ws.
  - destruct fuel as [|fuel]; [now right|].
    inversion HF as [|? ? [_ Hx] HF']; subst.
    simpl map. rewrite join_cons_cons_app.
    apply parse_items_more with (w := w)
      (body := join (String "," w) (map D (y :: ys)) ++ wc ++ String "]" rest);
      [exact Hw | | |].
    + inversion HF' as [|? ? [Hy _] _]; subst. simpl map.
      destruct (join_cons_app (String "," w) (D y) (map D ys)
                  (wc ++ String "]" rest)) as [t' ->].
      apply Hy.
    + apply Hx. reflexivity.
    + apply (IH y HF').
Qed.

Lemma member_text_app (enc : JSONEncoder) (level : nat) (wk : string)
  (kv : string * json) (t : string) :
  key_separator enc = String ":" wk ->
  member_text enc level kv ++ t
  = String dquote
      (escape (fst kv)
       ++ String dquote (String ":" (wk ++ dumps enc level (snd kv) ++ t))).
Proof.
  intros E. unfold member_text, encode_basestring. rewrite E.
  simpl. rewrite ?append_assoc. simpl. now rewrite ?append_assoc.
Qed.

Lemma parse_members_join (enc : JSONEncoder) (level : nat)
  (wk w wc rest : string) :
  key_separator enc = String ":" wk ->
  all_ws wk = true ->
  all_ws w = true ->
  all_ws wc = true ->
  forall (ms : list (string * json)) (kv : string * json),
    Forall (fun kv => reads_back (dumps enc level (snd kv)) (snd kv))
      (kv :: ms) ->
    forall fuel,
      exists body,
        join (String "," w) (map (member_text enc level) (kv :: ms))
          ++ wc ++ String "}" rest = String dquote body
        /\ agrees (parse_members fuel body) (kv :: ms) rest.
Proof.
  intros Ek Hwk Hw Hwc. induction ms as [|kv' ms IH]; intros [k v] HF fuel.
  - inversion HF as [|? ? [Hs Hx] _]; subst. simpl in Hs, Hx.
    simpl map. simpl join. rewrite (member_text_app enc level wk) by exact Ek.
    simpl fst. simpl snd.
    eexists. split; [reflexivity|].
    destruct fuel as [|fuel]; [now right|].
    apply parse_members_last with (w := wc);
      [exact Hwk | exact Hwc | apply Hs |].
    apply Hx. now apply number_end_all_ws.
  - inversion HF as [|? ? [Hs Hx] HF']; subst. simpl in Hs, Hx.
    simpl map.
    rewrite join_cons_cons_app, (member_text_app enc level wk) by exact Ek.
    simpl fst. simpl snd.
    eexists. split; [reflexivity|].
    destruct fuel as [|fuel]; [now right|].
    destruct (IH kv' HF' fuel) as (more & Emore & Hmore).
    simpl map in Emore. rewrite Emore.
    apply parse_members_more with (w := w) (more := more);
      [exact Hwk | exact Hw | apply Hs | | exact Hmore].
    apply Hx. reflexivity.
Qed.

(** ** Integers *)

Lemma fold_digits_acc (u : Decimal.uint) (acc : positive) :
  fold_left (fun a c => a * 10 + digit_val c)%Z
    (list_ascii_of_string (NilEmpty.string_of_uint u)) (Z.pos acc)
  = Z.pos (Pos.of_uint_acc u acc).
Proof.
  revert acc.
  induction u; intros acc;
    cbn [NilEmpty.string_of_uint list_ascii_of_string fold_left Pos.of_uint_acc];
    [reflexivity| ..];
    rewrite <- IHu; f_equal;
    match goal with
    | |- context [digit_val ?c] =>
        let v := eval vm_compute in (digit_val c) in
        change (digit_val c) with v
    end; lia.
Qed.

Lemma int_of_digits_uint (u : Decimal.uint) :
  int_of_digits (NilEmpty.string_of_uint u) = Z.of_N (Pos.of_uint u).
Proof.
  unfold int_of_digits.
  induction u;
    cbn [NilEmpty.string_of_uint list_ascii_of_string fold_left Pos.of_uint];
    [reflexivity | exact IHu | ..];
    apply (fold_digits_acc u).
Qed.

Lemma span_digits_uint (u : Decimal.uint) (rest : string) :
  number_end rest = true ->
  span_digits (NilEmpty.string_of_uint u ++ rest)
  = (NilEmpty.string_of_uint u, rest).
Proof.
  intros Hr. induction u; simpl; try (rewrite IHu; reflexivity).
  destruct rest as [|c r]; [reflexivity|]. simpl in *.
  apply negb_true_iff in Hr.
  destruct (is_digit c); [discriminate | reflexivity].
Qed.

(** The decimal form of a positive number starts with a digit from 1
    to 9, which digits follow. *)
Lemma to_uint_head (p : positive) :
  exists c u,
    NilZero.string_of_uint (Pos.to_uint p)
      = String c (NilEmpty.string_of_uint u)
    /\ is_digit c = true /\ Ascii.eqb c "0" = false.
Proof.
  assert (Decimal.unorm (Pos.to_uint p) = Pos.to_uint p) as Hn.
  { rewrite <- (DecimalPos.Unsigned.to_of (Pos.to_uint p)).
    now rewrite DecimalPos.Unsigned.of_to. }
  pose proof (DecimalPos.Unsigned.to_uint_nonzero p) as Hz.
  pose proof (DecimalPos.Unsigned.to_uint_nonnil p) as Hnil.
  assert (forall d, Pos.to_uint p <> Decimal.D0 d) as H0.
  { intros d E.
    destruct (Decimal.uint_eq_dec (Decimal.nzhead (Pos.to_uint p)) Decimal.Nil)
      as [En|En].
    - apply DecimalFacts.unorm_0 in En. congruence.
    - apply DecimalFacts.unorm_nzhead in En. rewrite Hn in En.
      apply (DecimalFacts.nzhead_nonzero (Pos.to_uint p) d). congruence. }
  destruct (Pos.to_uint p) as [|u|u|u|u|u|u|u|u|u|u];
    [contradiction | exfalso; eapply H0; reflexivity | ..];
    eexists; exists u; repeat split; reflexivity.
Qed.

Lemma int_of_digits_positive (p : positive) :
  int_of_digits (NilZero.string_of_uint (Pos.to_uint p)) = Z.pos p.
Proof.
  pose proof (int_of_digits_uint (Pos.to_uint p)) as H.
  rewrite DecimalPos.Unsigned.of_to in H.
  pose proof (DecimalPos.Unsigned.to_uint_nonnil p) as Hnil.
  destruct (Pos.to_uint p); [contradiction | exact H ..].
Qed.

Lemma number_end_cons (c : ascii) (r : string) :
  number_end (String c r) = true ->
  is_digit c = false /\ Ascii.eqb c "." = false
  /\ (Ascii.eqb c "e" || Ascii.eqb c "E")%bool = false.
Proof.
  simpl. intros H. apply negb_true_iff in H.
  destruct (is_digit c); [discriminate|].
  destruct (Ascii.eqb c "."); [discriminate|].
  destruct (Ascii.eqb c "e"); [discriminate|].
  destruct (Ascii.eqb c "E"); [discriminate|]. auto.
Qed.

Lemma match_frac_end (rest : string) :
  number_end rest = true -> match_frac rest = ("", rest).
Proof.
  destruct rest as [|c r]; [reflexivity|]. intros H.
  apply number_end_cons in H as (_ & H & _). simpl. now rewrite H.
Qed.

Lemma match_exp_end (rest : string) :
  number_end rest = true -> match_exp rest = ("", rest).
Proof.
  destruct rest as [|c r]; [reflexivity|]. intros H.
  apply number_end_cons in H as (_ & _ & H). simpl. now rewrite H.
Qed.

Lemma is_digit_not_minus (c : ascii) :
  is_digit c = true -> Ascii.eqb c "-" = false.
Proof.
  destruct (Ascii.eqb_spec c "-") as [->|]; [discriminate | reflexivity].
Qed.

Lemma match_integer_positive (p : positive) (rest : string) :
  number_end rest = true ->
  match_integer (NilZero.string_of_uint (Pos.to_uint p) ++ rest)
  = Some (false, NilZero.string_of_uint (Pos.to_uint p), rest)
  /\ match_integer (String "-" (NilZero.string_of_uint (Pos.to_uint p) ++ rest))
     = Some (true, NilZero.string_of_uint (Pos.to_uint p), rest)
  /\ int_of_digits (NilZero.string_of_uint (Pos.to_uint p)) = Z.pos p.
Proof.
  intros Hr. pose proof (int_of_digits_positive p) as Hv.
  destruct (to_uint_head p) as (c & u & E & Hd & H0).
  rewrite E in Hv |- *.
  pose proof (is_digit_not_minus c Hd) as Hm.
  unfold match_integer. simpl.
  rewrite Hm, H0, Hd, span_digits_uint by assumption. auto.
Qed.

(** A decimal integer written by [json.dumps], followed by something a
    number may end before, is read as that integer. *)
Lemma scan_number_int (z : Z) (rest : string) :
  number_end rest = true ->
  scan_number (NilZero.string_of_int (Z.to_int z) ++ rest) = Some (JInt z, rest).
Proof.
  intros Hr. unfold scan_number.
  destruct z as [|p|p]; cbn [Z.to_int NilZero.string_of_int].
  - simpl. rewrite match_frac_end, match_exp_end by assumption. reflexivity.
  - destruct (match_integer_positive p rest Hr) as (-> & _ & Hv).
    rewrite match_frac_end, match_exp_end by assumption. now rewrite Hv.
  - cbn [append].
    destruct (match_integer_positive p rest Hr) as (_ & -> & Hv).
    rewrite match_frac_end, match_exp_end by assumption. now rewrite Hv.
Qed.

Lemma number_head_facts (c : ascii) :
  (is_digit c || Ascii.eqb c "-")%bool = true ->
  Ascii.eqb c dquote = false /\ Ascii.eqb c "{" = false
  /\ Ascii.eqb c "[" = false /\ Ascii.eqb "n" c = false
  /\ Ascii.eqb "t" c = false /\ Ascii.eqb "f" c = false
  /\ is_ws c = false /\ Ascii.eqb c "]" = false.
Proof.
  destruct c as [[] [] [] [] [] [] [] []]; vm_compute; intros H;
    try discriminate H; repeat split.
Qed.

Lemma scan_once_number (fuel : nat) (c : ascii) (s' : string) (v : json)
  (r : string) :
  (is_digit c || Ascii.eqb c "-")%bool = true ->
  scan_number (String c s') = Some (v, r) ->
  scan_once (S fuel) (String c s') = Done v r.
Proof.
  intros Hc H.
  destruct (number_head_facts c Hc) as (H1 & H2 & H3 & H4 & H5 & H6 & _).
  cbn [scan_once]. rewrite H1, H2, H3.
  unfold scan_literal. cbn [strip_prefix]. rewrite H4, H5, H6, H.
  reflexivity.
Qed.

Lemma string_of_int_head (z : Z) :
  exists c t, NilZero.string_of_int (Z.to_int z) = String c t
    /\ (is_digit c || Ascii.eqb c "-")%bool = true.
Proof.
  destruct z as [|p|p]; cbn [Z.to_int NilZero.string_of_int].
  - do 2 eexists. split; reflexivity.
  - destruct (to_uint_head p) as (c & u & -> & Hd & _).
    exists c, (NilEmpty.string_of_uint u). now rewrite Hd.
  - do 2 eexists. split; reflexivity.
Qed.

Lemma int_reads_back (z : Z) :
  reads_back (NilZero.string_of_int (Z.to_int z)) (JInt z).
Proof.
  destruct (string_of_int_head z) as (c & t & E & Hc).
  split.
  - intros tail. rewrite E. simpl.
    destruct (number_head_facts c Hc) as (_ & _ & _ & _ & _ & _ & -> & ->).
    reflexivity.
  - intros tail [|fuel] Ht; [now right|]. left.
    pose proof (scan_number_int z tail Ht) as H. rewrite E in H |- *.
    now apply scan_once_number.
Qed.

(** ** Every value *)

Lemma dumps_array_app (enc : JSONEncoder) (level : nat) (x : json)
  (xs : list json) (rest : string) :
  dumps enc level (JArray (x :: xs)) ++ rest
  = String "["
      (newline_indent enc (S level)
       ++ join (item_separator enc ++ newline_indent enc (S level))
            (map (dumps enc (S level)) (x :: xs))
       ++ newline_indent enc level ++ String "]" rest).
Proof.
  change (dumps enc level (JArray (x :: xs)))
    with ("[" ++ newline_indent enc (S level)
          ++ join (item_separator enc ++ newline_indent enc (S level))
               (map (dumps enc (S level)) (x :: xs))
          ++ newline_indent enc level ++ "]").
  rewrite !append_assoc. reflexivity.
Qed.

Lemma dumps_object_app (enc : JSONEncoder) (level : nat)
  (kv : string * json) (ms : list (string * json)) (rest : string) :
  dumps enc level (JObject (kv :: ms)) ++ rest
  = String "{"
      (newline_indent enc (S level)
       ++ join (item_separator enc ++ newline_indent enc (S level))
            (map (member_text enc (S level)) (kv :: ms))
       ++ newline_indent enc level ++ String "}" rest).
Proof.
  change (dumps enc level (JObject (kv :: ms)))
    with ("{" ++ newline_indent enc (S level)
          ++ join (item_separator enc ++ newline_indent enc (S level))
               (map (member_text enc (S level)) (kv :: ms))
          ++ newline_indent enc level ++ "}").
  rewrite !append_assoc. reflexivity.
Qed.

Lemma forallb_Forall_impl {A : Type} (f : A -> bool) (P : A -> Prop)
  (l : list A) :
  Forall (fun x => f x = true -> P x) l ->
  forallb f l = true ->
  Forall P l.
Proof.
  induction 1 as [|x l Hx _ IH]; simpl; intros H; constructor;
    apply andb_prop in H as [H1 H2]; auto.
Qed.

(** What [dumps] writes for a value without floats scans as that value,
    at any depth, with any indent and with either pair of separators. *)
Theorem dumps_reads_back (enc : JSONEncoder) (v : json) :
  separators_ok enc = true ->
  dumpable v = true ->
  forall level, reads_back (dumps enc level v) v.
Proof.
  intros Hsep.
  induction v as [|b|z|lexeme|s|items IH|members IH] using json_nested_ind;
    intros Hd level.
  - split; [reflexivity|]. intros tail [|fuel] _; [now right | now left].
  - destruct b; (split; [reflexivity|]);
      intros tail [|fuel] _; (now right) || (now left).
  - apply int_reads_back.
  - discriminate.
  - split; [reflexivity|]. intros tail [|fuel] _; [now right|]. left.
    cbn [dumps]. unfold encode_basestring. simpl append.
    rewrite append_assoc. simpl.
    now rewrite scanstring_escape.
  - destruct items as [|x xs].
    { split; [reflexivity|]. intros tail [|fuel] _; [now right | now left]. }
    split; [intros tail; now rewrite dumps_array_app|].
    intros tail [|fuel] _; [now right|].
    rewrite dumps_array_app.
    simpl in Hd.
    assert (Forall (fun x => reads_back (dumps enc (S level) x) x) (x :: xs))
      as HF.
    { apply (forallb_Forall_impl dumpable); [|exact Hd].
      eapply Forall_impl; [|exact IH]. intros a Ha Hda. now apply Ha. }
    destruct (item_separator_form enc (S level) Hsep) as (w & Hw & ->).
    rewrite scan_once_open_array.
    + apply (agrees_scan_map JArray).
      apply parse_items_join; auto using all_ws_newline_indent.
    + apply all_ws_newline_indent.
    + inversion HF as [|? ? [Hx _] _]; subst. simpl map.
      destruct (join_cons_app (String "," w) (dumps enc (S level) x)
                  (map (dumps enc (S level)) xs)
                  (newline_indent enc level ++ String "]" tail)) as [t' ->].
      apply Hx.
  - destruct members as [|kv ms].
    { split; [reflexivity|]. intros tail [|fuel] _; [now right | now left]. }
    split; [intros tail; now rewrite dumps_object_app|].
    intros tail [|fuel] _; [now right|].
    rewrite dumps_object_app.
    simpl in Hd. apply andb_prop in Hd as [Hkeys Hd].
    assert (Forall (fun kv => reads_back (dumps enc (S level) (snd kv)) (snd kv))
              (kv :: ms)) as HF.
    { apply (forallb_Forall_impl (fun kv => dumpable (snd kv))); [|exact Hd].
      eapply Forall_impl; [|exact IH]. intros a Ha Hda. now apply Ha. }
    destruct (item_separator_form enc (S level) Hsep) as (w & Hw & ->).
    destruct (separators_ok_inv enc Hsep) as (_ & wk & _ & _ & Ek & Hwk).
    destruct (parse_members_join enc (S level) wk w
                (newline_indent enc level) tail Ek Hwk Hw
                (all_ws_newline_indent enc level) ms kv HF fuel)
      as (body & -> & Hbody).
    rewrite scan_once_open_object by apply all_ws_newline_indent.
    replace (JObject (kv :: ms)) with (JObject (Dict.of_pairs (kv :: ms)))
      by (now rewrite DictFacts.of_pairs_distinct).
    now apply (agrees_scan_map (fun ms => JObject (Dict.of_pairs ms))).
Qed.

(** The text of a value without floats, written with such separators,
    loads as the value. *)
Theorem json_loads_dumps_with (enc : JSONEncoder) (v : json) :
  separators_ok enc = true ->
  dumpable v = true ->
  json_loads (dumps enc 0 v) = Some v.
Proof.
  intros Hsep Hd. unfold json_loads.
  destruct (dumps_reads_back enc v Hsep Hd 0) as [Hs Hr].
  pose proof (json_loads_enough_fuel (dumps enc 0 v)) as Hfuel.
  specialize (Hs "").
  specialize (Hr "" (S (2 * String.length (dumps enc 0 v))) eq_refl).
  rewrite append_nil_r in Hs, Hr.
  rewrite skip_ws_starts_value in Hfuel |- * by exact Hs.
  destruct Hr as [-> | Hr]; [reflexivity | contradiction].
Qed.

(** [json.loads(json.dumps(obj, indent=...))] is [obj], for every value
    without floats. *)
Theorem json_loads_dumps (indent : option nat) (v : json) :
  dumpable v = true -> json_loads (json_dumps indent v) = Some v.
Proof.
  apply json_loads_dumps_with, separators_ok_encoder.
Qed.

(* ================================================================= *)
(** * Round trip of a [StrategyOutput] *)

Lemma validate_items_strings (loc : list LocItem) (i : nat) (l : list string) :
  validate_items validate_str loc i (map JString l) = inr l.
Proof.
  revert i. induction l as [|s l IH]; intros i; simpl; [reflexivity|].
  now rewrite IH.
Qed.







(** A text with a quote, a backslash, a line break, a control character
    and characters outside ASCII comes back as it was. *)
Example escapes_round_trip :
  let s := String dquote (String backslash (String newline
             (String "001" "é😀"))) in
  json_loads (json_dumps (Some 2) (JArray [JString s; JInt (-120)]))
  = Some (JArray [JString s; JInt (-120)]).
Proof. vm_compute. reflexivity. Qed.

(* ================================================================= *)
(** * The hero section *)

(** C9. For every angle and product name, the text shown is a JSON document
    that reads back as [shopify_json_data]; in it, the default of the
    [heading] setting holds the name of the angle and the product name, the
    default of the [text] setting is the [persuasive_copy] of the angle, the
    [button_link] setting has type [url] and no default, and the default of
    the [button_label] setting is the fixed label. *)
Theorem hero_section_document (selected_angle : SalesAngle)
  (product_name : string) :
  let doc := shopify_json_data selected_angle product_name in
  json_loads (json_output selected_angle product_name) = Some doc
  /\ (exists heading title,
        setting doc "heading" = Some heading
        /\ Dict.get heading "default" = Some (JString title)
        /\ substring_of (avatar_name selected_angle) title
        /\ substring_of product_name title)
  /\ (exists text,
        setting doc "text" = Some text
        /\ Dict.get text "default"
           = Some (JString (persuasive_copy selected_angle)))
  /\ (exists button_link,
        setting doc "button_link" = Some button_link
        /\ Dict.get button_link "type" = Some (JString "url")
        /\ Dict.get button_link "default" = None)
  /\ (exists button_label,
        setting doc "button_label" = Some button_label
        /\ Dict.get button_label "default" = Some (JString "Comprar Ahora")).
Proof.
  intros doc. split; [|split; [|split; [|split]]].
  - apply json_loads_dumps. reflexivity.
  - exists [("type", JString "text"); ("id", JString "heading");
            ("label", JString "Heading");
            ("default", JString (shopify_title selected_angle product_name))],
      (shopify_title selected_angle product_name).
    split; [reflexivity|]. split; [reflexivity|].
    unfold shopify_title. split;
      repeat first [ apply substring_here | apply substring_refl
                   | apply substring_later | apply substring_skip ].
  - eexists. split; reflexivity.
  - eexists. split; [reflexivity|]. split; reflexivity.
  - eexists. split; reflexivity.
Qed.

(** Scenario D: the angle chosen by name after scenario A. *)
Example scenario_D :
  hero_section scenario_A_session "The Skeptic" "Silent Blender"
  = Some (json_output the_skeptic "Silent Blender")
  /\ setting (shopify_json_data the_skeptic "Silent Blender") "heading"
     = Some [("type", JString "text"); ("id", JString "heading");
             ("label", JString "Heading");
             ("default", JString "¡The Skeptic Resuelto! El Silent Blender")].
Proof. split; reflexivity. Qed.

(** Scenario A, from an empty session. *)
Example scenario_A :
  generar_estrategia py3 (answers scenario_A_response) "{}" "Silent Blender"
    "too loud" empty_session
  = (Success, scenario_A_session).
Proof. vm_compute. reflexivity. Qed.

(** Scenario C. *)
Example scenario_C :
  response_validator py3 scenario_C_response
  = Violation [{| err_type := missing; err_loc := [Key "sales_angles"];
                  err_input := JObject [("main_pain_points",
                                         JArray [JString "x"])] |}].
Proof. vm_compute. reflexivity. Qed.

(** A response that is valid JSON but not of the schema is a schema
    violation, not a malformed output; one that is not JSON is the
    reverse. *)
Example number_is_not_malformed :
  response_validator py3 "12.5e3" =
  Violation [{| err_type := model_type; err_loc := [];
                err_input := JFloat "12.5e3" |}].
Proof. vm_compute. reflexivity. Qed.

Example trailing_comma_is_malformed :
  response_validator py3 "[1, 2,]" = Malformed.
Proof. vm_compute. reflexivity. Qed.

(* ================================================================= *)
(** * The handler, outcome by outcome *)

(** Past the input check, the report on a returned text is the verdict of
    the Response Validator on it, a limit of the interpreter reached while
    decoding is reported as a failure of the call, and a valid result
    becomes the whole session. *)
Lemma generar_estrategia_cases (py : interpreter)
  (client : string -> completion)
  (json_schema product_name competitor_reviews : string) (st : session_state) :
  generar_estrategia py client json_schema product_name competitor_reviews st =
  if (is_empty product_name || is_empty competitor_reviews)%bool then
    (MissingInput, st)
  else
    match client (prompt product_name competitor_reviews json_schema) with
    | Raised msg => (TransportFailure msg, st)
    | Returned None =>
        (TransportFailure
           "the JSON object must be str, bytes or bytearray, not NoneType", st)
    | Returned (Some content) =>
        match response_validator py content with
        | Malformed => (MalformedOutput, st)
        | Violation errors => (SchemaViolation errors, st)
        | Unread detail => (TransportFailure detail, st)
        | Valid o => (Success, session_of o)
        end
    end.
Proof.
  unfold generar_estrategia, response_validator.
  destruct (is_empty product_name || is_empty competitor_reviews)%bool;
    [reflexivity|].
  rewrite try_block_cases.
  destruct (client _) as [msg|[content|]]; try reflexivity.
  destruct (json_loads_within py content) as [v| |detail]; try reflexivity.
  destruct (model_validate v); reflexivity.
Qed.

Lemma is_empty_true (s : string) : is_empty s = true <-> s = "".
Proof. destruct s; simpl; split; congruence. Qed.

Lemma inputs_empty (product_name competitor_reviews : string) :
  (is_empty product_name || is_empty competitor_reviews)%bool = true
  <-> product_name = "" \/ competitor_reviews = "".
Proof. now rewrite orb_true_iff, !is_empty_true. Qed.

(** X1. The handler reports a missing input exactly when the product name
    or the review text is empty. *)
Theorem missing_input_iff (py : interpreter)
  (client : string -> completion)
  (json_schema product_name competitor_reviews : string) (st : session_state) :
  fst (generar_estrategia py client json_schema product_name competitor_reviews st)
    = MissingInput
  <-> product_name = "" \/ competitor_reviews = "".
Proof.
  rewrite <- inputs_empty, generar_estrategia_cases.
  destruct (is_empty product_name || is_empty competitor_reviews)%bool.
  - simpl. tauto.
  - destruct (client _) as [msg|[content|]]; simpl;
      try (split; discriminate).
    destruct (response_validator py content); simpl; split; discriminate.
Qed.




(* ================================================================= *)
(** * Runs of the script *)

Lemma generar_estrategia_consistent (py : interpreter)
  (client : string -> completion)
  (json_schema product_name competitor_reviews : string) (st : session_state) :
  consistent st ->
  consistent (snd (generar_estrategia py client json_schema product_name
                     competitor_reviews st)).
Proof.
  intros H. rewrite generar_estrategia_cases.
  destruct (is_empty product_name || is_empty competitor_reviews)%bool; [exact H|].
  destruct (client _) as [msg|[content|]]; try exact H.
  destruct (response_validator py content); try exact H. reflexivity.
Qed.

(** The handler leaves the session as it was, or reports success. *)
Lemma generar_estrategia_state (py : interpreter)
  (client : string -> completion)
  (json_schema product_name competitor_reviews : string) (st : session_state) :
  snd (generar_estrategia py client json_schema product_name competitor_reviews st)
    = st
  \/ fst (generar_estrategia py client json_schema product_name
            competitor_reviews st) = Success.
Proof.
  rewrite generar_estrategia_cases.
  destruct (is_empty product_name || is_empty competitor_reviews)%bool;
    [now left|].
  destruct (client _) as [msg|[content|]]; try (now left).
  destruct (response_validator py content); (now left) || (now right).
Qed.

(** The script, once the handler is written out. *)
Lemma script_cases (py : interpreter)
  (openai_api_key : string)
  (OpenAI : string -> string + (string -> completion))
  (json_schema product_name competitor_reviews : string) (button : bool)
  (radio : list string -> option string) (st : session_state) :
  script py openai_api_key OpenAI json_schema product_name competitor_reviews
    button radio st =
  if is_empty openai_api_key then (halt KeyWarning, st)
  else
    match OpenAI openai_api_key with
    | inl e => (halt (InitError e), st)
    | inr client =>
        if button then
          let run := generar_estrategia py client json_schema product_name
                       competitor_reviews st in
          match fst run with
          | Success | MissingInput =>
              ({| notices := [Report (fst run)]; halted := false;
                  results := output_section radio product_name (snd run) |},
               snd run)
          | _ => (halt (Report (fst run)), snd run)
          end
        else
          ({| notices := []; halted := false;
              results := output_section radio product_name st |}, st)
    end.
Proof.
  unfold script.
  destruct (is_empty openai_api_key); [reflexivity|].
  destruct (OpenAI openai_api_key) as [e|client]; [reflexivity|].
  destruct button; [|reflexivity].
  destruct (generar_estrategia py client json_schema product_name
              competitor_reviews st) as [[| | | |] st']; reflexivity.
Qed.

(** X5. A run of the script keeps the session consistent: if the lookup
    stored is the one derived from the result stored (or nothing is
    stored), it is so after the run, whatever the run does. *)
Theorem script_keeps_consistent (py : interpreter)
  (openai_api_key : string)
  (OpenAI : string -> string + (string -> completion))
  (json_schema product_name competitor_reviews : string) (button : bool)
  (radio : list string -> option string) (st : session_state) :
  consistent st ->
  consistent (snd (script py openai_api_key OpenAI json_schema product_name
                     competitor_reviews button radio st)).
Proof.
  intros H. rewrite script_cases.
  destruct (is_empty openai_api_key); [exact H|].
  destruct (OpenAI openai_api_key) as [e|client]; [exact H|].
  destruct button; [|exact H].
  pose proof (generar_estrategia_consistent py client json_schema product_name
                competitor_reviews st H) as Hc.
  cbv zeta.
  destruct (fst (generar_estrategia py client json_schema product_name
                   competitor_reviews st)); exact Hc.
Qed.

(** Scenario A, as a run from the empty session. *)
Lemma script_keeps_consistent_witness :
  consistent empty_session
  /\ snd (script py3 "sk-test" (OpenAI_answers scenario_A_response) "{}"
            "Silent Blender" "too loud" true first_option empty_session)
     = scenario_A_session
  /\ consistent
       (snd (script py3 "sk-test" (OpenAI_answers scenario_A_response) "{}"
               "Silent Blender" "too loud" true first_option empty_session)).
Proof.
  split; [exact I|]. split; [vm_compute; reflexivity|].
  apply (script_keeps_consistent py3 "sk-test" (OpenAI_answers scenario_A_response)
           "{}" "Silent Blender" "too loud" true first_option empty_session).
  exact I.
Defined.

(** X6. A run changes the session only if it shows the success message:
    without an API key, without a client, without the button pressed, with
    an input missing or after any error, the session is as it was. *)
Theorem script_store_changes_only_on_success (py : interpreter)
  (openai_api_key : string)
  (OpenAI : string -> string + (string -> completion))
  (json_schema product_name competitor_reviews : string) (button : bool)
  (radio : list string -> option string) (st : session_state) :
  ~ In (Report Success)
      (notices (fst (script py openai_api_key OpenAI json_schema product_name
                       competitor_reviews button radio st))) ->
  snd (script py openai_api_key OpenAI json_schema product_name
         competitor_reviews button radio st) = st.
Proof.
  rewrite script_cases.
  destruct (is_empty openai_api_key); [reflexivity|].
  destruct (OpenAI openai_api_key) as [e|client]; [reflexivity|].
  destruct button; [|reflexivity].
  cbv zeta. rewrite generar_estrategia_cases.
  destruct (is_empty product_name || is_empty competitor_reviews)%bool;
    [reflexivity|].
  destruct (client _) as [msg|[content|]]; try reflexivity.
  destruct (response_validator py content); try reflexivity.
  simpl. intros H. contradiction H. now left.
Qed.

(** Scenario C after scenario A: the stored result stays. *)
Lemma script_store_changes_only_on_success_witness :
  notices (fst (script py3 "sk-test" (OpenAI_answers scenario_C_response) "{}"
                  "Silent Blender" "too loud" true first_option
                  scenario_A_session))
  = [Report (SchemaViolation
       [{| err_type := missing; err_loc := [Key "sales_angles"];
           err_input := JObject [("main_pain_points", JArray [JString "x"])] |}])]
  /\ snd (script py3 "sk-test" (OpenAI_answers scenario_C_response) "{}"
            "Silent Blender" "too loud" true first_option scenario_A_session)
     = scenario_A_session.
Proof.
  split; [vm_compute; reflexivity|].
  apply (script_store_changes_only_on_success py3 "sk-test"
           (OpenAI_answers scenario_C_response) "{}" "Silent Blender"
           "too loud" true first_option scenario_A_session).
  vm_compute. intros [H|[]]. discriminate H.
Defined.

(** X7. A run halts, showing no output section, exactly when the API key
    is missing, the client cannot be built, or the handler reports one of
    its three errors; a missing input does not halt the run, and neither
    does a success or a run without the button. *)
Theorem script_halts_iff (py : interpreter)
  (openai_api_key : string)
  (OpenAI : string -> string + (string -> completion))
  (json_schema product_name competitor_reviews : string) (button : bool)
  (radio : list string -> option string) (st : session_state) :
  let run := script py openai_api_key OpenAI json_schema product_name
               competitor_reviews button radio st in
  (halted (fst run) = true
   <-> (exists n, notices (fst run) = [n]
                  /\ n <> Report Success /\ n <> Report MissingInput))
  /\ (halted (fst run) = true -> results (fst run) = NotShown)
  /\ (halted (fst run) = false ->
      results (fst run) = output_section radio product_name (snd run)).
Proof.
  cbv zeta. rewrite script_cases.
  destruct (is_empty openai_api_key).
  { simpl. repeat split; try discriminate.
    intros _. exists KeyWarning. repeat split; discriminate. }
  destruct (OpenAI openai_api_key) as [e|client].
  { simpl. repeat split; try discriminate.
    intros _. exists (InitError e). repeat split; discriminate. }
  destruct button.
  - cbv zeta.
    destruct (fst (generar_estrategia py client json_schema product_name
                     competitor_reviews st)) as [| |errors| |detail] eqn:E;
      simpl; repeat split; try discriminate; try reflexivity;
      try (intros (n & [= <-] & H1 & H2); congruence);
      intros _; eexists; repeat split; discriminate.
  - simpl. repeat split; try discriminate; try reflexivity.
    intros (n & H & _). discriminate.
Qed.

(** X8. After a run that ends in an error of the handler, the next run
    without the button pressed shows the output section of the session as
    it was before the failed run: the failed run hid the stored result and
    did not lose it. *)
Theorem script_next_run_shows_prior (py : interpreter)
  (openai_api_key : string)
  (OpenAI : string -> string + (string -> completion))
  (json_schema product_name competitor_reviews : string)
  (radio : list string -> option string) (st : session_state) (r : report) :
  notices (fst (script py openai_api_key OpenAI json_schema product_name
                  competitor_reviews true radio st)) = [Report r] ->
  r <> Success ->
  r <> MissingInput ->
  results (fst (script py openai_api_key OpenAI json_schema product_name
                  competitor_reviews true radio st)) = NotShown
  /\ forall product_name' competitor_reviews' radio',
       script py openai_api_key OpenAI json_schema product_name'
         competitor_reviews' false radio'
         (snd (script py openai_api_key OpenAI json_schema product_name
                 competitor_reviews true radio st))
       = ({| notices := []; halted := false;
             results := output_section radio' product_name' st |}, st).
Proof.
  rewrite !script_cases.
  destruct (is_empty openai_api_key) eqn:Ek; [discriminate|].
  destruct (OpenAI openai_api_key) as [e|client] eqn:Eo; [discriminate|].
  cbv zeta.
  destruct (generar_estrategia_state py client json_schema product_name
              competitor_reviews st) as [Hs|Hs].
  - rewrite Hs.
    destruct (fst (generar_estrategia py client json_schema product_name
                     competitor_reviews st)); simpl;
      intros [= <-] H1 H2; try congruence;
      (split; [reflexivity|]); intros p' r' radio';
      now rewrite script_cases, Ek, Eo.
  - rewrite Hs. simpl. intros [= <-] H1. congruence.
Qed.

(** Scenario B after scenario A, then a run without the button. *)
Lemma script_next_run_shows_prior_witness :
  results (fst (script py3 "sk-test" (OpenAI_answers "not json") "{}"
                  "Silent Blender" "too loud" true first_option
                  scenario_A_session)) = NotShown
  /\ forall product_name' competitor_reviews' radio',
       script py3 "sk-test" (OpenAI_answers "not json") "{}" product_name'
         competitor_reviews' false radio'
         (snd (script py3 "sk-test" (OpenAI_answers "not json") "{}"
                 "Silent Blender" "too loud" true first_option
                 scenario_A_session))
       = ({| notices := []; halted := false;
             results := output_section radio' product_name'
                          scenario_A_session |}, scenario_A_session).
Proof.
  apply (script_next_run_shows_prior py3 "sk-test" (OpenAI_answers "not json") "{}"
           "Silent Blender" "too loud" first_option scenario_A_session
           MalformedOutput).
  - vm_compute. reflexivity.
  - discriminate.
  - discriminate.
Defined.

(* ================================================================= *)
(** * The options of the radio and the angle selected *)

Lemma existsb_eqb_In (k : string) (l : list string) :
  existsb (String.eqb k) l = true <-> In k l.
Proof.
  rewrite existsb_exists. split.
  - intros (x & Hin & E). apply String.eqb_eq in E. now subst.
  - intros H. exists k. split; [exact H | apply String.eqb_refl].
Qed.

Lemma keys_set_step {A : Type} (d : Dict.t A) (k : string) (v : A) :
  Dict.keys (Dict.set d k v)
  = if existsb (String.eqb k) (Dict.keys d) then Dict.keys d
    else (Dict.keys d ++ [k])%list.
Proof.
  unfold Dict.keys. induction d as [|[k0 v0] d IH]; simpl; [reflexivity|].
  rewrite (String.eqb_sym k k0).
  destruct (String.eqb k0 k); simpl; [reflexivity|].
  rewrite IH. now destruct (existsb (String.eqb k) (map fst d)).
Qed.

Lemma keys_fold_set_step {A : Type} (l : list (string * A)) (acc : Dict.t A) :
  Dict.keys (fold_left (fun d kv => Dict.set d (fst kv) (snd kv)) l acc)
  = fold_left
      (fun acc k => if existsb (String.eqb k) acc then acc
                    else (acc ++ [k])%list)
      (map fst l) (Dict.keys acc).
Proof.
  revert acc. induction l as [|[k v] l IH]; intros acc; simpl; [reflexivity|].
  now rewrite IH, keys_set_step.
Qed.

Lemma first_occurrences_step_NoDup (names acc : list string) :
  NoDup acc ->
  NoDup (fold_left
           (fun acc k => if existsb (String.eqb k) acc then acc
                         else (acc ++ [k])%list) names acc).
Proof.
  revert acc. induction names as [|k names IH]; intros acc H; simpl; [exact H|].
  apply IH. destruct (existsb (String.eqb k) acc) eqn:E; [exact H|].
  apply NoDup_app; [exact H | repeat constructor; intros [] |].
  intros x Hx [<-|[]].
  apply existsb_eqb_In in Hx. congruence.
Qed.

(** X9. The options given to the radio are the names of the angles of the
    stored result, each once, in the order of their first occurrence: two
    angles of the same name make one option. *)
Theorem angle_options_first_occurrences (o : StrategyOutput) :
  Dict.keys (angles_of o)
  = first_occurrences (map avatar_name (sales_angles o))
  /\ NoDup (Dict.keys (angles_of o)).
Proof.
  assert (Dict.keys (angles_of o)
          = first_occurrences (map avatar_name (sales_angles o))) as E.
  { unfold angles_of, Dict.of_pairs, first_occurrences.
    rewrite keys_fold_set_step, map_map. reflexivity. }
  split; [exact E|]. rewrite E.
  apply first_occurrences_step_NoDup. constructor.
Qed.

Example angle_options_duplicate :
  Dict.keys
    (angles_of {| main_pain_points := [];
                  sales_angles := [the_skeptic; nameless; the_skeptic] |})
  = ["The Skeptic"; ""].
Proof. reflexivity. Qed.

(** X10. When the angles of a result bear pairwise distinct names, the
    lookup loses nothing: it holds every angle under its name, in the
    order of the sequence. *)
Theorem distinct_names_lossless (o : StrategyOutput) :
  NoDup (map avatar_name (sales_angles o)) ->
  angles_of o = map (fun a => (avatar_name a, a)) (sales_angles o).
Proof.
  intros H. unfold angles_of, Dict.of_pairs.
  rewrite DictFacts.fold_set_fresh.
  - reflexivity.
  - now rewrite map_map.
  - intros k _ [].
Qed.

Lemma distinct_names_lossless_witness :
  NoDup (map avatar_name (sales_angles nameless_output))
  /\ angles_of nameless_output
     = map (fun a => (avatar_name a, a)) (sales_angles nameless_output).
Proof.
  assert (NoDup (map avatar_name (sales_angles nameless_output))) as H.
  { simpl. constructor; [intros [H|[]]; discriminate H|].
    constructor; [intros []|constructor]. }
  split; [exact H|].
  apply (distinct_names_lossless nameless_output H).
Defined.

Lemma in_keys_get {A : Type} (d : Dict.t A) (k : string) :
  In k (Dict.keys d) -> exists v, Dict.get d k = Some v.
Proof.
  unfold Dict.keys. induction d as [|[k0 v0] d IH]; simpl; [intros []|].
  destruct (String.eqb_spec k0 k) as [->|Hne]; [eauto|].
  intros [H|H]; [contradiction | auto].
Qed.


(** X11. In a consistent session, with a radio that returns one of the
    options it is given, the output section never ends in a [KeyError]:
    the lookup of the selected name always finds an angle. *)
Theorem output_section_no_key_error (radio : list string -> option string)
  (product_name : string) (st : session_state) (key : string) :
  consistent st ->
  radio_ok radio ->
  output_section radio product_name st <> KeyError key.
Proof.
  unfold consistent, output_section. intros Hc Hr.
  destruct (strategy st) as [o|]; [|discriminate].
  destruct (angles st) as [d|]; [|contradiction].
  specialize (Hr (Dict.keys d)).
  destruct (radio (Dict.keys d)) as [name|]; [|discriminate].
  destruct (is_empty name); [discriminate|].
  destruct (in_keys_get d name Hr) as [a ->]. discriminate.
Qed.

Lemma first_option_ok : radio_ok first_option.
Proof. intros [|x l]; simpl; auto. Qed.

Lemma output_section_no_key_error_witness :
  consistent scenario_A_session
  /\ radio_ok first_option
  /\ output_section first_option "Silent Blender" scenario_A_session
     <> KeyError "The Skeptic".
Proof.
  split; [reflexivity|]. split; [exact first_option_ok|].
  apply (output_section_no_key_error first_option "Silent Blender"
           scenario_A_session "The Skeptic").
  - reflexivity.
  - exact first_option_ok.
Defined.



(** X13. An angle whose name is the empty string is stored and its name is
    one of the options of the radio, but selecting it shows no angle and no
    Shopify code: the test on the selected name takes the empty name for no
    selection. *)
Theorem empty_name_not_rendered (o : StrategyOutput) (a : SalesAngle)
  (radio : list string -> option string) (product_name : string) :
  In a (sales_angles o) ->
  avatar_name a = "" ->
  radio (Dict.keys (angles_of o)) = Some "" ->
  In "" (Dict.keys (angles_of o))
  /\ (exists b, Dict.get (angles_of o) "" = Some b)
  /\ output_section radio product_name (session_of o)
     = Shown {| pain_points := pain_points_markdown o;
                angle_options := Dict.keys (angles_of o);
                selected := None |}.
Proof.
  intros Hin Hname Hr.
  assert (In "" (Dict.keys (angles_of o))) as Hk.
  { unfold angles_of, Dict.of_pairs. apply DictFacts.keys_fold_set. left.
    rewrite map_map. simpl. rewrite <- Hname. now apply in_map. }
  split; [exact Hk|]. split; [now apply in_keys_get|].
  unfold output_section, session_of. simpl. now rewrite Hr.
Qed.

Lemma empty_name_not_rendered_witness :
  In "" (Dict.keys (angles_of nameless_output))
  /\ (exists b, Dict.get (angles_of nameless_output) "" = Some b)
  /\ output_section (fun _ => Some "") "Silent Blender"
       (session_of nameless_output)
     = Shown {| pain_points := pain_points_markdown nameless_output;
                angle_options := Dict.keys (angles_of nameless_output);
                selected := None |}.
Proof.
  apply (empty_name_not_rendered nameless_output nameless (fun _ => Some "")
           "Silent Blender").
  - simpl. auto.
  - reflexivity.
  - reflexivity.
Defined.

(* ================================================================= *)
(** * The markdown of the pain points *)

Lemma lines_no_newline (s : string) :
  no_newline s = true -> lines s = [s].
Proof.
  induction s as [|c s IH]; simpl; [reflexivity|].
  intros H. apply andb_prop in H as [Hc Hs].
  apply negb_true_iff in Hc. rewrite Hc, (IH Hs). reflexivity.
Qed.

Lemma lines_app_newline (x y : string) :
  no_newline x = true -> lines (x ++ String newline y) = x :: lines y.
Proof.
  induction x as [|c x IH]; simpl; [reflexivity|].
  intros H. apply andb_prop in H as [Hc Hx].
  apply negb_true_iff in Hc. rewrite Hc, (IH Hx). reflexivity.
Qed.

Lemma lines_join (chunks : list string) (x : string) :
  forallb no_newline (x :: chunks) = true ->
  lines (join (String newline "") (x :: chunks)) = x :: chunks.
Proof.
  revert x. induction chunks as [|y chunks IH]; intros x H.
  - simpl in H. rewrite andb_true_r in H. now apply lines_no_newline.
  - cbn [forallb] in H. apply andb_prop in H as [Hx H].
    etransitivity;
      [apply (lines_app_newline x (join (String newline "") (y :: chunks)) Hx)|].
    f_equal. apply IH. exact H.
Qed.

Lemma bullets_no_newline (l : list string) :
  forallb no_newline l = true ->
  forallb no_newline (map (fun pp => "- " ++ pp) l) = true.
Proof.
  induction l as [|x l IH]; [reflexivity|]. cbn [map forallb].
  intros H. apply andb_prop in H as [Hx Hl].
  apply andb_true_intro. split; [exact Hx | exact (IH Hl)].
Qed.

(** X14. When there is at least one pain point and none holds a line
    break, the markdown shown has one line for each pain point, in order:
    the pain point after a dash and a space.  With no pain point the
    markdown is empty. *)
Theorem pain_points_markdown_lines (o : StrategyOutput) :
  main_pain_points o <> [] ->
  forallb no_newline (main_pain_points o) = true ->
  lines (pain_points_markdown o)
  = map (fun pp => "- " ++ pp) (main_pain_points o).
Proof.
  unfold pain_points_markdown. intros Hne H.
  apply bullets_no_newline in H.
  destruct (main_pain_points o) as [|pp l]; [contradiction|].
  cbn [map] in *. now apply lines_join.
Qed.

Lemma pain_points_markdown_lines_witness :
  lines (pain_points_markdown scenario_A_output)
  = ["- noise"; "- leaks"; "- price"].
Proof.
  apply (pain_points_markdown_lines scenario_A_output).
  - discriminate.
  - reflexivity.
Defined.

Example pain_points_markdown_empty :
  pain_points_markdown {| main_pain_points := []; sales_angles := [] |} = "".
Proof. reflexivity. Qed.

(** A pain point that holds a line break takes two lines. *)
Example pain_points_markdown_broken :
  lines (pain_points_markdown
           {| main_pain_points := [String "a" (String newline "b")];
              sales_angles := [] |})
  = ["- a"; "b"].
Proof. reflexivity. Qed.

(* ================================================================= *)
(** * The Shopify code, read back *)

(** X15. The Shopify code determines the heading and the copy it was
    made from: two selections that give the same code text have the same
    title and the same persuasive copy, whatever characters these hold. *)
Theorem json_output_injective (a b : SalesAngle) (p q : string) :
  json_output a p = json_output b q ->
  shopify_title a p = shopify_title b q
  /\ persuasive_copy a = persuasive_copy b.
Proof.
  intros H. apply (f_equal json_loads) in H. unfold json_output in H.
  rewrite !json_loads_dumps in H by reflexivity.
  injection H as Htitle Hcopy. split; [|exact Hcopy].
  unfold shopify_title. cbn [append]. do 2 f_equal. exact Htitle.
Qed.

(** Two angles that differ in the pain point they address, which the
    code does not show: the code texts are the same, and so are the titles
    and the copies. *)
Lemma json_output_injective_witness :
  the_skeptic
  <> {| avatar_name := "The Skeptic"; pain_point_addressed := "leaks";
        persuasive_copy := "..." |}
  /\ shopify_title the_skeptic "Silent Blender"
     = shopify_title
         {| avatar_name := "The Skeptic"; pain_point_addressed := "leaks";
            persuasive_copy := "..." |} "Silent Blender"
  /\ persuasive_copy the_skeptic
     = persuasive_copy
         {| avatar_name := "The Skeptic"; pain_point_addressed := "leaks";
            persuasive_copy := "..." |}.
Proof.
  split; [discriminate|].
  apply (json_output_injective the_skeptic
           {| avatar_name := "The Skeptic"; pain_point_addressed := "leaks";
              persuasive_copy := "..." |} "Silent Blender" "Silent Blender").
  vm_compute. reflexivity.
Defined.

(* ================================================================= *)
(** * The prompt, besides its two inputs *)

Lemma starts_with_nil (s : string) : starts_with "" s.
Proof. now exists s. Qed.

Lemma starts_with_cons (c : ascii) (x s : string) :
  starts_with x s -> starts_with (String c x) (String c s).
Proof. intros [post ->]. now exists post. Qed.

Lemma starts_with_app (r x s : string) :
  starts_with x s -> starts_with (r ++ x) (r ++ s).
Proof. intros [post ->]. exists post. now rewrite append_assoc. Qed.

Lemma starts_with_substring (x s : string) :
  starts_with x s -> substring_of x s.
Proof. intros [post ->]. apply substring_here. Qed.

(** X16. The prompt holds the schema text as it was given, and the review
    text stands in it between two rules of three dashes, each on a line of
    its own: a line break, the indentation and the three dashes, a line
    break, the indentation and the review text, a line break, the
    indentation and the three dashes, a line break. *)
Theorem prompt_schema_and_fence
  (product_name competitor_reviews json_schema : string) :
  substring_of json_schema (prompt product_name competitor_reviews json_schema)
  /\ substring_of (fenced competitor_reviews)
       (prompt product_name competitor_reviews json_schema).
Proof.
  unfold prompt. split.
  - repeat first [ apply substring_here | apply substring_later ].
  - do 4 apply substring_later.
    do 39 apply substring_skip.
    apply starts_with_substring. unfold fenced.
    repeat first [ apply starts_with_nil | apply starts_with_cons
                 | apply starts_with_app ].
Qed.

(* ================================================================= *)
(** * Validation, both ways *)

Lemma validate_SalesAngle_entry (loc : list LocItem) (e : json)
  (a : SalesAngle) :
  angle_entry e a -> validate_SalesAngle loc e = inr a.
Proof.
  intros (d & -> & H1 & H2 & H3). destruct a as [n p c]. simpl in *.
  unfold validate_field. now rewrite H1, H2, H3.
Qed.

Lemma validate_items_entries (l : list json) (sa : list SalesAngle) :
  Forall2 angle_entry l sa ->
  forall loc i, validate_items validate_SalesAngle loc i l = inr sa.
Proof.
  induction 1 as [|e a l sa He _ IH]; intros loc i; [reflexivity|].
  cbn [validate_items].
  now rewrite (validate_SalesAngle_entry _ e a He), IH.
Qed.

Lemma validated_strings (mp : list json) (strs : list string) :
  Forall2 (fun x s => exists loc, validate_str loc x = inr s) mp strs ->
  mp = map JString strs.
Proof.
  induction 1 as [|x s mp strs [loc Hx] _ IH]; [reflexivity|].
  apply validate_str_inr_inv in Hx. simpl. congruence.
Qed.

(** X17. An object validates to a given result exactly when it holds,
    under [main_pain_points], the list of the strings of the result and,
    under [sales_angles], a list of objects that hold the three strings of
    each angle of the result, in order; nothing else in the object
    matters. *)
Theorem model_validate_iff (d : Dict.t json) (o : StrategyOutput) :
  model_validate (JObject d) = inr o
  <-> Dict.get d "main_pain_points"
        = Some (JArray (map JString (main_pain_points o)))
      /\ exists l, Dict.get d "sales_angles" = Some (JArray l)
                   /\ Forall2 angle_entry l (sales_angles o).
Proof.
  split.
  - intros H.
    destruct (model_validate_inr_inv _ _ H)
      as (d0 & mp & l & [= <-] & Hmp & Hl & Hstr & Hall).
    apply validated_strings in Hstr. subst mp.
    split; [exact Hmp|]. exists l. split; [exact Hl|].
    eapply Forall2_impl; [|exact Hall].
    intros e a [loc He]. unfold angle_entry.
    now apply validate_SalesAngle_inr_inv in He.
  - intros (Hmp & l & Hl & Hall). destruct o as [mp sa]. simpl in *.
    unfold model_validate. cbn [validate_StrategyOutput].
    unfold validate_field. rewrite Hmp, Hl. cbn [validate_list].
    now rewrite validate_items_strings, (validate_items_entries l sa Hall).
Qed.

(** ** A [ValidationError] is never empty *)

Lemma ap_nonempty {A B : Type} (f : validation (A -> B)) (x : validation A) :
  f <> inl [] -> x <> inl [] -> ap f x <> inl [].
Proof.
  destruct f as [[|e1 l1]|g], x as [[|e2 l2]|a]; unfold ap; simpl;
    congruence.
Qed.

Lemma validate_field_nonempty {A : Type}
  (validator : list LocItem -> json -> validation A)
  (loc : list LocItem) (d : Dict.t json) (name : string) :
  (forall loc' v, validator loc' v <> inl []) ->
  validate_field validator loc d name <> inl [].
Proof.
  intros H. unfold validate_field.
  destruct (Dict.get d name); [apply H | discriminate].
Qed.

Lemma validate_list_nonempty {A : Type}
  (item : list LocItem -> json -> validation A) :
  (forall loc v, item loc v <> inl []) ->
  forall loc v, validate_list item loc v <> inl [].
Proof.
  intros H loc v. destruct v; simpl; try discriminate.
  generalize 0. induction items as [|x l IH]; intros i; simpl;
    [discriminate|].
  apply ap_nonempty; [apply ap_nonempty; [discriminate | apply H] | apply IH].
Qed.

Lemma validate_str_nonempty (loc : list LocItem) (v : json) :
  validate_str loc v <> inl [].
Proof. destruct v; discriminate. Qed.

Lemma validate_SalesAngle_nonempty (loc : list LocItem) (v : json) :
  validate_SalesAngle loc v <> inl [].
Proof.
  destruct v; simpl; try discriminate.
  repeat apply ap_nonempty; try discriminate;
    apply validate_field_nonempty, validate_str_nonempty.
Qed.

(** X18. A validation that fails reports at least one error: the handler
    never shows a schema violation without details. *)
Theorem validation_errors_nonempty (py : interpreter)
  (client : string -> completion)
  (json_schema product_name competitor_reviews : string) (st : session_state)
  (obj : json) :
  model_validate obj <> inl []
  /\ fst (generar_estrategia py client json_schema product_name
            competitor_reviews st) <> SchemaViolation [].
Proof.
  assert (forall v, model_validate v <> inl []) as Hv.
  { intros v. unfold model_validate. destruct v; simpl; try discriminate.
    repeat apply ap_nonempty; try discriminate;
      apply validate_field_nonempty, validate_list_nonempty;
      [apply validate_str_nonempty | apply validate_SalesAngle_nonempty]. }
  split; [apply Hv|].
  rewrite generar_estrategia_cases. unfold response_validator.
  destruct (is_empty product_name || is_empty competitor_reviews)%bool;
    [discriminate|].
  destruct (client _) as [msg|[content|]]; try discriminate.
  destruct (json_loads_within py content) as [v| |detail]; try discriminate.
  specialize (Hv v). destruct (model_validate v); simpl; congruence.
Qed.

(** ** Values of the wrong type *)

Lemma validate_str_fails (loc : list LocItem) (v : json) :
  is_string v = false ->
  fails_with (validate_str loc v)
    {| err_type := string_type; err_loc := loc; err_input := v |}.
Proof.
  intros H. destruct v; try discriminate H;
    (eexists; split; [reflexivity | now left]).
Qed.

Lemma validate_list_fails {A : Type}
  (item : list LocItem -> json -> validation A) (loc : list LocItem)
  (v : json) :
  is_array v = false ->
  fails_with (validate_list item loc v)
    {| err_type := list_type; err_loc := loc; err_input := v |}.
Proof.
  intros H. destruct v; try discriminate H;
    (eexists; split; [reflexivity | now left]).
Qed.

Lemma validate_SalesAngle_fails (loc : list LocItem) (v : json) :
  is_object v = false ->
  fails_with (validate_SalesAngle loc v)
    {| err_type := model_type; err_loc := loc; err_input := v |}.
Proof.
  intros H. destruct v; try discriminate H;
    (eexists; split; [reflexivity | now left]).
Qed.

Lemma validate_SalesAngle_mistyped (loc : list LocItem) (a : Dict.t json)
  (name : string) (v : json) :
  In name SalesAngle_fields ->
  Dict.get a name = Some v ->
  is_string v = false ->
  fails_with (validate_SalesAngle loc (JObject a))
    {| err_type := string_type; err_loc := (loc ++ [Key name])%list;
       err_input := v |}.
Proof.
  intros Hin Hget Hs. simpl.
  destruct Hin as [<-|[<-|[<-|[]]]].
  - apply ap_fails_l, ap_fails_l, ap_fails_r.
    eapply validate_field_fails; [exact Hget | now apply validate_str_fails].
  - apply ap_fails_l, ap_fails_r.
    eapply validate_field_fails; [exact Hget | now apply validate_str_fails].
  - apply ap_fails_r.
    eapply validate_field_fails; [exact Hget | now apply validate_str_fails].
Qed.

Lemma model_validate_mistyped (d : Dict.t json) (e : ErrorDetails) :
  mistyped d e -> fails_with (model_validate (JObject d)) e.
Proof.
  unfold model_validate.
  intros [name v Hin Hget Hv | l i v Hget Hnth Hv | l i v Hget Hnth Hv
         | l i a name v Hget Hnth Hin Hga Hv]; simpl.
  - destruct Hin as [<-|[<-|[]]].
    + apply ap_fails_l, ap_fails_r.
      eapply validate_field_fails; [exact Hget|].
      now apply (validate_list_fails validate_str).
    + apply ap_fails_r.
      eapply validate_field_fails; [exact Hget|].
      now apply (validate_list_fails validate_SalesAngle).
  - apply ap_fails_l, ap_fails_r.
    eapply validate_field_fails; [exact Hget|]. simpl.
    eapply (validate_items_fails _ _ _ i 0); [exact Hnth|].
    now apply validate_str_fails.
  - apply ap_fails_r.
    eapply validate_field_fails; [exact Hget|]. simpl.
    eapply (validate_items_fails _ _ _ i 0); [exact Hnth|].
    now apply validate_SalesAngle_fails.
  - apply ap_fails_r.
    eapply validate_field_fails; [exact Hget|]. simpl.
    eapply (validate_items_fails _ _ _ i 0); [exact Hnth|].
    now apply (validate_SalesAngle_mistyped
                 ([Key "sales_angles"] ++ [Index i])%list).
Qed.

(** X19. A response that loads to an object holding a value of the wrong
    type (something that is not a list under one of the two fields, a
    pain point that is not a string, an angle that is not an object, or
    something that is not a string under a field of an angle) is a schema
    violation, and the error entry with the type of the error, the path of
    the value and the value itself is among its details. *)
Theorem mistyped_is_schema_violation (py : interpreter) (content : string)
  (d : Dict.t json) (e : ErrorDetails) :
  json_loads_within py content = Loaded (JObject d) ->
  mistyped d e ->
  exists errors,
    In e errors /\ response_validator py content = Violation errors.
Proof.
  intros Hj Hm.
  destruct (model_validate_mistyped d e Hm) as (errors & Hv & Hin).
  exists errors. split; [exact Hin|].
  unfold response_validator. now rewrite Hj, Hv.
Qed.

(** An angle whose [avatar_name] is the number 7. *)
Lemma mistyped_is_schema_violation_witness :
  exists errors,
    In {| err_type := string_type;
          err_loc := [Key "sales_angles"; Index 0; Key "avatar_name"];
          err_input := JInt 7 |} errors
    /\ response_validator py3
         ("{" ++ quoted "main_pain_points" ++ ": [], "
          ++ quoted "sales_angles" ++ ": [{" ++ quoted "avatar_name"
          ++ ": 7}]}")
       = Violation errors.
Proof.
  apply (mistyped_is_schema_violation py3 _
           [("main_pain_points", JArray []);
            ("sales_angles", JArray [JObject [("avatar_name", JInt 7)]])]).
  - vm_compute. reflexivity.
  - apply (mistyped_angle_field _ [JObject [("avatar_name", JInt 7)]] 0
             [("avatar_name", JInt 7)] "avatar_name" (JInt 7));
      try reflexivity.
    simpl. auto.
Defined.

(* ================================================================= *)
(** * A successful run, end to end *)



Example scenario_A_page :
  results (fst (script py3 "sk-test" (OpenAI_answers scenario_A_response) "{}"
                  "Silent Blender" "too loud" true first_option empty_session))
  = Shown {| pain_points := pain_points_markdown scenario_A_output;
             angle_options := ["The Skeptic"];
             selected := Some (view_angle the_skeptic "Silent Blender") |}.
Proof. vm_compute. reflexivity. Qed.
